(** * InkStack: the pixel-transform engine of [src/App.jsx]

    A shallow embedding of the render engine of the lino-cut planner
    ([hexToRgb], [blendColors], [renderToContext], [applyCrop]) and the
    properties its specification states about it.

    JavaScript numbers are IEEE-754 binary64 values.  They are modelled by
    Rocq's primitive floats, which are the same format with the same
    round-to-nearest-even arithmetic, so that the luminance and the grey value
    the engine computes are the very doubles a browser computes.  Numbers that
    the program only uses as counters or array indices ([layerCount],
    [selectedLayerIndex], bucket indices, the integer thresholds that come
    from [parseInt] and [Math.round]) are modelled by [Z]. *)

From Stdlib Require Import Ascii String.
From Stdlib Require Import ZArith List Bool Lia.
From Stdlib Require Import Permutation Sorted.
From Stdlib Require Import Floats.PrimFloat Floats.SpecFloat Floats.FloatOps.
From Stdlib Require Import Floats.FloatAxioms.
From Stdlib Require Uint63.
From Stdlib Require Import DecimalString.
From Stdlib Require DecimalPos DecimalZ.
Import ListNotations.

Set Warnings "-inexact-float".
Local Open Scope Z_scope.

(** ** JavaScript numbers *)

Module JS.

(** The double nearest to an integer (the integer itself below 2^53).
    Within the range of a machine integer the conversion is the primitive
    one; beyond it the integer is rounded as the format prescribes. *)
Definition ofZ (z : Z) : float :=
  match z with
  | Z0 => zero
  | Zpos p =>
      if Z.pos p <? 2 ^ 63 then PrimFloat.of_uint63 (Uint63.of_pos p)
      else SF2Prim (binary_normalize prec emax z 0 false)
  | Zneg p =>
      if Z.pos p <? 2 ^ 63
      then PrimFloat.opp (PrimFloat.of_uint63 (Uint63.of_pos p))
      else SF2Prim (binary_normalize prec emax z 0 false)
  end.

(** The relational operator [<] on numbers; false as soon as one side is
    NaN. *)
Definition lt (x y : float) : bool := PrimFloat.ltb x y.

(** [x < a[i]] where [a[i]] may be [undefined]: [undefined] converts to
    NaN, and the comparison is false. *)
Definition ltUndef (x : float) (y : option Z) : bool :=
  match y with
  | Some t => lt x (ofZ t)
  | None => false
  end.

(** A finite double is [m * 2 ^ e] up to its sign; when [e < 0] its
    [- e] low bits are the fractional part.  [Math.floor] shifts them out
    (the shift of a negative integer rounds down). *)
Definition Math_floor (x : float) : float :=
  match Prim2SF x with
  | S754_finite s m e =>
      if 0 <=? e then x
      else ofZ (Z.shiftr (if s then Z.neg m else Z.pos m) (- e))
  | _ => x
  end.

(** [Math.round]: the nearest integer, a tie going towards +infinity, that
    is the floor of [x + 1/2] taken exactly; the sign of a zero result is
    that of the argument. *)
Definition Math_round (x : float) : float :=
  match Prim2SF x with
  | S754_finite s m e =>
      if 0 <=? e then x
      else
        let n := if s then Z.neg m else Z.pos m in
        let q := Z.shiftr (2 * n + Z.shiftl 1 (- e)) (- e + 1) in
        if (q =? 0) && s then neg_zero else ofZ q
  | _ => x
  end.

(** The conversion a [Uint8ClampedArray] applies to a number stored in it
    (ECMAScript's ToUint8Clamp): NaN gives 0, the value is clamped to
    [0, 255], and a tie is rounded to the even neighbour. *)
Definition toUint8Clamp (x : float) : Z :=
  match Prim2SF x with
  | S754_nan => 0
  | S754_zero _ => 0
  | S754_infinity s => if s then 0 else 255
  | S754_finite s m e =>
      if s then 0
      else if 0 <=? e then Z.min 255 (Z.shiftl (Z.pos m) e)
      else
        let f := Z.shiftr (Z.pos m) (- e) in
        let rem2 := 2 * (Z.pos m - Z.shiftl f (- e)) in
        let one := Z.shiftl 1 (- e) in
        if 255 <=? f then 255
        else if one <? rem2 then f + 1
        else if rem2 <? one then f
        else if Z.even f then f else f + 1
  end.

(** [a[i]] for a JavaScript array and a numeric index: [undefined]
    ([None]) outside the array. *)
Definition lookup {A : Type} (a : list A) (i : Z) : option A :=
  if i <? 0 then None else nth_error a (Z.to_nat i).

End JS.

(** ** Colours *)

Record rgb : Type := mkRgb { rgb_r : float; rgb_g : float; rgb_b : float }.

(** One hexadecimal digit, in either case. *)
Definition hexDigit (c : ascii) : option Z :=
  let n := Z.of_nat (nat_of_ascii c) in
  if (48 <=? n) && (n <=? 57) then Some (n - 48)
  else if (97 <=? n) && (n <=? 102) then Some (n - 87)
  else if (65 <=? n) && (n <=? 70) then Some (n - 55)
  else None.

(** [parseInt(s, 16)] on a capture group of two hexadecimal digits. *)
Definition parseHexPair (c1 c2 : ascii) : option Z :=
  match hexDigit c1, hexDigit c2 with
  | Some h, Some l => Some (16 * h + l)
  | _, _ => None
  end.

(** The match of [/^#?([a-f\d]{2})([a-f\d]{2})([a-f\d]{2})$/i]: an
    optional [#] followed by exactly six hexadecimal digits, with the three
    capture groups read by [parseInt(_, 16)]; [None] when [exec] returns
    [null]. *)
Definition execHex (hex : string) : option (Z * Z * Z) :=
  let body := match hex with
              | String "#"%char rest => rest
              | _ => hex
              end in
  match list_ascii_of_string body with
  | [c1; c2; c3; c4; c5; c6] =>
      match parseHexPair c1 c2, parseHexPair c3 c4, parseHexPair c5 c6 with
      | Some vr, Some vg, Some vb => Some (vr, vg, vb)
      | _, _, _ => None
      end
  | _ => None
  end.

(** [hexToRgb]: the parsed channels, or black when the text is not a
    six-digit hexadecimal colour. *)
Definition hexToRgb (hex : string) : rgb :=
  match execHex hex with
  | Some (vr, vg, vb) => mkRgb (JS.ofZ vr) (JS.ofZ vg) (JS.ofZ vb)
  | None => mkRgb 0 0 0
  end.

(** [blendColors]: the multiply blend of one ink over a background. *)
Definition blendChannel (bg fg : float) : float :=
  JS.Math_floor ((bg * fg) / 255)%float.

Definition blendColors (bg fg : rgb) : rgb :=
  {| rgb_r := blendChannel (rgb_r bg) (rgb_r fg);
     rgb_g := blendChannel (rgb_g bg) (rgb_g fg);
     rgb_b := blendChannel (rgb_b bg) (rgb_b fg) |}.

(** ** Configuration *)

Inductive Tab : Type := composite | layers.
Inductive CutMode : Type := stack | zone.
Inductive BlendMode : Type := multiply | normal.

Record CropRect : Type := mkRect { rx : Z; ry : Z; rw : Z; rh : Z }.

(** The [config] object of [renderToContext]: the component state merged
    with the caller's overrides. *)
Record Config : Type := mkConfig {
  activeTab : Tab;
  layerCount : Z;
  thresholds : list Z;
  blurAmount : float;
  selectedLayerIndex : Z;
  inverted : bool;
  cutMode : CutMode;
  isColorMode : bool;
  paperColor : string;
  inkColors : list string;
  blendMode : BlendMode;
  isCropping : bool;
  cropRect : option CropRect
}.

Definition setInverted (v : bool) (c : Config) : Config :=
  mkConfig (activeTab c) (layerCount c) (thresholds c) (blurAmount c)
           (selectedLayerIndex c) v (cutMode c) (isColorMode c)
           (paperColor c) (inkColors c) (blendMode c) (isCropping c)
           (cropRect c).

(** ** Pixel buffers *)

(** An [ImageData]: [data] is the flat row-major RGBA byte sequence of a
    [Uint8ClampedArray], of length [4 * width * height]. *)
Record ImageData : Type := mkImageData {
  width : Z;
  height : Z;
  data : list Z
}.

(** The pixels of a flat RGBA sequence, as quadruples. *)
Fixpoint pixelsOf (d : list Z) : list (Z * Z * Z * Z) :=
  match d with
  | r :: g :: b :: a :: rest => (r, g, b, a) :: pixelsOf rest
  | _ => []
  end.

(** ** The sorted private copy of the thresholds *)

(** [[...config.thresholds].sort((a, b) => a - b)]: the thresholds in
    ascending numeric order. *)
Fixpoint insertAsc (x : Z) (l : list Z) : list Z :=
  match l with
  | [] => [x]
  | y :: rest => if x <=? y then x :: l else y :: insertAsc x rest
  end.

Fixpoint sortAsc (l : list Z) : list Z :=
  match l with
  | [] => []
  | x :: rest => insertAsc x (sortAsc rest)
  end.

Definition sortedThresholds (c : Config) : list Z := sortAsc (thresholds c).

(** ** The render engine: [renderToContext] *)

(** [gray]: the luminance of a pixel, evaluated left to right in doubles. *)
Definition luminance (r g b : Z) : float :=
  (0.299 * JS.ofZ r + 0.587 * JS.ofZ g + 0.114 * JS.ofZ b)%float.

(** The threshold scan: the loop over [t] that stops at the first
    [sortedThresholds[t]] with [gray < sortedThresholds[t]]. *)
Fixpoint scanThresholds (gray : float) (ts : list Z) (t : Z) : option Z :=
  match ts with
  | [] => None
  | x :: rest =>
      if JS.lt gray (JS.ofZ x) then Some t
      else scanThresholds gray rest (t + 1)
  end.

(** [bucketIndex]: [layerCount - 1] (paper) unless the scan stops. *)
Definition bucketIndex (layers : Z) (sorted : list Z) (gray : float) : Z :=
  match scanThresholds gray sorted 0 with
  | Some t => t
  | None => layers - 1
  end.

(** The inner loop of the multiply policy: for [i] from [i0], [n] times,
    blend [inksRgb[i]] over the running colour when it is defined. *)
Fixpoint applyInks (inksRgb : list rgb) (i0 n : nat) (currentRGB : rgb) : rgb :=
  match n with
  | O => currentRGB
  | S n' =>
      applyInks inksRgb (S i0) n'
        (match nth_error inksRgb i0 with
         | Some ink => blendColors currentRGB ink
         | None => currentRGB
         end)
  end.

(** The colour pushed for bucket [b]; [None] is [undefined], which the
    opaque policy pushes when [inksRgb[inksToApplyCount - 1]] is missing. *)
Definition bucketColor (c : Config) (bgRgb : rgb) (inksRgb : list rgb)
    (b : Z) : option rgb :=
  let inksToApplyCount := (layerCount c - 1) - b in
  match blendMode c with
  | multiply => Some (applyInks inksRgb 0 (Z.to_nat inksToApplyCount) bgRgb)
  | normal =>
      if 0 <? inksToApplyCount
      then JS.lookup inksRgb (inksToApplyCount - 1)
      else Some bgRgb
  end.

(** [bucketColors]: filled for [b = 0 .. layerCount - 1] in the coloured
    composite view, left empty otherwise. *)
Definition bucketColors (c : Config) : list (option rgb) :=
  match activeTab c, isColorMode c with
  | composite, true =>
      let bgRgb := hexToRgb (paperColor c) in
      let inksRgb := map hexToRgb (inkColors c) in
      map (fun b => bucketColor c bgRgb inksRgb (Z.of_nat b))
          (seq 0 (Z.to_nat (layerCount c)))
  | _, _ => []
  end.

(** The grey level stored in the black-and-white composite view: [val], as
    the clamped array keeps it. *)
Definition grayValue (layers bucket : Z) : Z :=
  JS.toUint8Clamp
    (JS.Math_round ((JS.ofZ bucket / JS.ofZ (layers - 1)) * 255)%float).

(** [isKeep] after the inversion flag, mapped to the stencil colour. *)
Definition stencil (inv isKeep : bool) : Z :=
  if (if inv then negb isKeep else isKeep) then 0 else 255.

(** The body of the processing loop for one pixel: the new red, green and
    blue bytes, or [None] when reading [c.r] of an undefined bucket colour
    throws a TypeError. *)
Definition processPixel (c : Config) (sorted : list Z)
    (colors : list (option rgb)) (r g b : Z) : option (Z * Z * Z) :=
  let gray := luminance r g b in
  match activeTab c with
  | composite =>
      let bucket := bucketIndex (layerCount c) sorted gray in
      if isColorMode c then
        match JS.lookup colors bucket with
        | Some (Some col) =>
            Some (JS.toUint8Clamp (rgb_r col),
                  JS.toUint8Clamp (rgb_g col),
                  JS.toUint8Clamp (rgb_b col))
        | _ => None
        end
      else
        let val := grayValue (layerCount c) bucket in
        Some (val, val, val)
  | layers =>
      match cutMode c with
      | zone =>
          let bucket := bucketIndex (layerCount c) sorted gray in
          let targetBucket := (layerCount c - 1) - (selectedLayerIndex c + 1) in
          let out := stencil (inverted c) (bucket =? targetBucket) in
          Some (out, out, out)
      | stack =>
          let thresholdIndex :=
            Z.of_nat (length sorted) - 1 - selectedLayerIndex c in
          if thresholdIndex <? 0 then Some (255, 255, 255)
          else
            let cutThreshold := JS.lookup sorted thresholdIndex in
            let out := stencil (inverted c) (JS.ltUndef gray cutThreshold) in
            Some (out, out, out)
      end
  end.

(** The processing loop, four bytes at a time; the alpha byte is never
    written.  An [ImageData] holds whole pixels, so the last case is only
    met at the end of the data. *)
Fixpoint processLoop (c : Config) (sorted : list Z)
    (colors : list (option rgb)) (d : list Z) : option (list Z) :=
  match d with
  | r :: g :: b :: a :: rest =>
      match processPixel c sorted colors r g b with
      | Some (r', g', b') =>
          match processLoop c sorted colors rest with
          | Some rest' => Some (r' :: g' :: b' :: a :: rest')
          | None => None
          end
      | None => None
      end
  | _ => Some d
  end.

(** What a call of [renderToContext] leaves behind. *)
Inductive Outcome : Type :=
| CropOverlay                 (* the crop selection was drawn instead *)
| NoSourceImage               (* nothing to render: early return *)
| Painted (out : ImageData)   (* [putImageData] was reached *)
| Thrown.                     (* a TypeError escaped the pixel loop *)

(** The normal render mode, from [getImageData] to [putImageData]:
    [imageData] is what the canvas holds once the (blurred) working image has
    been drawn on it. *)
Definition renderImageData (c : Config) (imageData : ImageData) : Outcome :=
  match processLoop c (sortedThresholds c) (bucketColors c) (data imageData) with
  | Some d => Painted (mkImageData (width imageData) (height imageData) d)
  | None => Thrown
  end.

(** [renderToContext]: [original] and [source] tell whether
    [originalImageRef.current] and [sourceImageRef.current] are set. *)
Definition renderToContext (original source : bool) (c : Config)
    (imageData : ImageData) : Outcome :=
  if isCropping c && original then CropOverlay
  else if negb source then NoSourceImage
  else renderImageData c imageData.

(** ** The crop transform: [applyCrop] *)

Module Crop.

(** The part of the component state [applyCrop] reads and writes. *)
Record State : Type := mkState {
  image : option ImageData;
  imageDimensions : Z * Z;
  isCropping : bool;
  cropRect : option CropRect;
  sourceImageRef : option ImageData;
  originalImageRef : option ImageData
}.

Definition setCropRect (rect : option CropRect) (st : State) : State :=
  mkState (image st) (imageDimensions st) (isCropping st) rect
          (sourceImageRef st) (originalImageRef st).

(** The byte at channel [k] of the pixel at column [px], row [py]; a
    pixel outside the image is transparent black, as on a cleared
    canvas. *)
Definition sample (img : ImageData) (px py k : Z) : Z :=
  if (0 <=? px) && (px <? width img) && (0 <=? py) && (py <? height img)
  then nth (Z.to_nat (4 * (py * width img + px) + k)) (data img) 0
  else 0.

Definition range (n : Z) : list Z := map Z.of_nat (seq 0 (Z.to_nat n)).

(** A one-to-one copy of the region at [(sx, sy)] of size [sw] by [sh] onto
    a fresh canvas of that size: what
    [drawImage(img, sx, sy, sw, sh, 0, 0, sw, sh)] paints for integral
    coordinates. *)
Definition copyRegion (img : ImageData) (sx sy sw sh : Z) : ImageData :=
  mkImageData sw sh
    (flat_map (fun j =>
       flat_map (fun i => map (sample img (sx + i) (sy + j)) (range 4))
                (range sw))
       (range sh)).

Section WithCanvas.

(** The canvas collaborator: the image obtained by drawing a region of
    the master onto a temporary canvas and reloading it. *)
Variable drawImage : ImageData -> Z -> Z -> Z -> Z -> ImageData.

(** [applyCrop], with the reload of the new image completed. *)
Definition applyCrop (st : State) : State :=
  match cropRect st, originalImageRef st with
  | Some rect, Some master =>
      let x := rx rect in
      let y := ry rect in
      let w := rw rect in
      let h := rh rect in
      if (w =? 0) || (h =? 0) then st
      else
        let finalX := if w <? 0 then x + w else x in
        let finalY := if h <? 0 then y + h else y in
        let finalW := Z.abs w in
        let finalH := Z.abs h in
        let newImg := drawImage master finalX finalY finalW finalH in
        mkState (Some newImg) (finalW, finalH) false (cropRect st)
                (Some newImg) (originalImageRef st)
  | _, _ => st
  end.

End WithCanvas.

End Crop.

(** ** The specification's wording of the transforms

    These definitions follow the specification, not the program; the
    theorems below compare the two. *)

Definition black (a : Z) : Z * Z * Z * Z := (0, 0, 0, a).
Definition white (a : Z) : Z * Z * Z * Z := (255, 255, 255, a).

(** The bucketizer on the exact luminance.  [spec_luminance1000] is a
    thousand times [0.299 R + 0.587 G + 0.114 B], an integer, so a threshold
    [x] is strictly greater than the luminance when
    [spec_luminance1000 r g b < 1000 * x]. *)
Definition spec_luminance1000 (r g b : Z) : Z := 299 * r + 587 * g + 114 * b.

(** The index of the first threshold strictly greater than the luminance. *)
Fixpoint spec_first_greater (lum1000 : Z) (ts : list Z) (t : Z) : option Z :=
  match ts with
  | [] => None
  | x :: rest =>
      if lum1000 <? 1000 * x then Some t
      else spec_first_greater lum1000 rest (t + 1)
  end.

(** That index, or [layerCount - 1] when no threshold exceeds the
    luminance. *)
Definition spec_bucket (layers : Z) (T : list Z) (r g b : Z) : Z :=
  match spec_first_greater (spec_luminance1000 r g b) T 0 with
  | Some t => t
  | None => layers - 1
  end.



(** Colours as integer triples, and the multiply blend on them:
    [floor (a * c / 255)] per channel. *)
Definition spec_blend (bg fg : Z * Z * Z) : Z * Z * Z :=
  let '(r1, g1, b1) := bg in
  let '(r2, g2, b2) := fg in
  (r1 * r2 / 255, g1 * g2 / 255, b1 * b2 / 255).

Definition spec_channels (hex : string) : Z * Z * Z :=
  match execHex hex with
  | Some t => t
  | None => (0, 0, 0)
  end.

Definition rgbOfZ (t : Z * Z * Z) : rgb :=
  let '(vr, vg, vb) := t in mkRgb (JS.ofZ vr) (JS.ofZ vg) (JS.ofZ vb).

(** The display colour of bucket [b]: the paper blended with the first
    [inksToApply] inks in order (multiply), or the ink at index
    [inksToApply - 1], the paper when no ink is applied (opaque). *)
Definition spec_bucket_color (policy : BlendMode) (paper : Z * Z * Z)
    (inks : list (Z * Z * Z)) (layers b : Z) : option (Z * Z * Z) :=
  let inksToApply := layers - 1 - b in
  match policy with
  | multiply =>
      Some (fold_left spec_blend (firstn (Z.to_nat inksToApply) inks) paper)
  | normal =>
      if 0 <? inksToApply then JS.lookup inks (inksToApply - 1)
      else Some paper
  end.

(** The grey level of a bucket: [bucket / (layerCount - 1) * 255] rounded
    to the nearest integer, a half going up, in exact arithmetic. *)
Definition spec_gray (layers bucket : Z) : Z :=
  (2 * 255 * bucket + (layers - 1)) / (2 * (layers - 1)).

(** The crop rectangle with non-negative extents. *)
Definition spec_normalize (rect : CropRect) : CropRect :=
  mkRect (if rw rect <? 0 then rx rect + rw rect else rx rect)
         (if rh rect <? 0 then ry rect + rh rect else ry rect)
         (Z.abs (rw rect)) (Z.abs (rh rect)).

(** A configuration the data model rules out. *)
Definition malformed (c : Config) : Prop :=
  layerCount c < 2 \/
  Z.of_nat (length (thresholds c)) <> layerCount c - 1 \/
  ~ (0 <= selectedLayerIndex c <= layerCount c - 2) \/
  Z.of_nat (length (inkColors c)) <> layerCount c - 1.

(** The bytes of a [Uint8ClampedArray] element. *)
Definition bytes : list Z := map Z.of_nat (seq 0 256).

(** A pixel whose colour bytes are replaced by [f] and whose alpha byte is
    kept. *)
Definition mapPixel (f : Z -> Z -> Z -> Z * Z * Z) (p : Z * Z * Z * Z)
  : Z * Z * Z * Z :=
  let '(r, g, b, a) := p in
  let '(r', g', b') := f r g b in (r', g', b', a).

(** ** The loop body, branch by branch *)

(** The colour bytes the stack branch writes. *)
Definition stackBytes (c : Config) (r g b : Z) : Z * Z * Z :=
  let sorted := sortedThresholds c in
  let thresholdIndex := Z.of_nat (length sorted) - 1 - selectedLayerIndex c in
  if thresholdIndex <? 0 then (255, 255, 255)
  else
    let out := stencil (inverted c)
                 (JS.ltUndef (luminance r g b) (JS.lookup sorted thresholdIndex)) in
    (out, out, out).

(** The colour bytes the zone branch writes. *)
Definition zoneBytes (c : Config) (r g b : Z) : Z * Z * Z :=
  let bucket := bucketIndex (layerCount c) (sortedThresholds c) (luminance r g b) in
  let targetBucket := (layerCount c - 1) - (selectedLayerIndex c + 1) in
  let out := stencil (inverted c) (bucket =? targetBucket) in
  (out, out, out).

(** The colour bytes of the cut-guide view. *)
Definition cutBytes (c : Config) (r g b : Z) : Z * Z * Z :=
  match cutMode c with
  | zone => zoneBytes c r g b
  | stack => stackBytes c r g b
  end.

(** The colour bytes of the black-and-white composite view. *)
Definition grayBytes (c : Config) (r g b : Z) : Z * Z * Z :=
  let bucket := bucketIndex (layerCount c) (sortedThresholds c) (luminance r g b) in
  let val := grayValue (layerCount c) bucket in
  (val, val, val).

(** The colour bytes of the coloured composite view, where the bucket
    colour is defined. *)
Definition colorBytes (c : Config) (r g b : Z) : Z * Z * Z :=
  let bucket := bucketIndex (layerCount c) (sortedThresholds c) (luminance r g b) in
  match JS.lookup (bucketColors c) bucket with
  | Some (Some col) =>
      (JS.toUint8Clamp (rgb_r col), JS.toUint8Clamp (rgb_g col),
       JS.toUint8Clamp (rgb_b col))
  | _ => (0, 0, 0)
  end.


(** Three channel values that are bytes. *)
Definition byteTriple (t : Z * Z * Z) : Prop :=
  let '(vr, vg, vb) := t in
  0 <= vr <= 255 /\ 0 <= vg <= 255 /\ 0 <= vb <= 255.

(** A stencil pixel: black or white, with the alpha byte of the source
    pixel. *)
Definition bitonal (p q : Z * Z * Z * Z) : Prop :=
  let '(_, _, _, a) := p in q = black a \/ q = white a.

(** Two stencil pixels over the same source pixel, one black and the other
    white. *)
Definition complementary (p q1 q2 : Z * Z * Z * Z) : Prop :=
  let '(_, _, _, a) := p in
  (q1 = black a /\ q2 = white a) \/ (q1 = white a /\ q2 = black a).

(** ** The rest of the component: effects, crop controls and export *)

(** The integer an integral double stands for (what [Math.round] returns
    is integral whenever it is finite). *)
Definition integerOf (x : float) : Z :=
  match Prim2SF x with
  | S754_finite s m e =>
      let v := if 0 <=? e then Z.shiftl (Z.pos m) e
               else Z.shiftr (Z.pos m) (- e) in
      if s then - v else v
  | _ => 0
  end.

(** The thresholds effect: [Math.round (step * i)] for [i = 1 .. count],
    with [step = 255 / layerCount]. *)
Definition initThresholds (layers : Z) : list Z :=
  let count := layers - 1 in
  let step := (255 / JS.ofZ layers)%float in
  map (fun i => integerOf (JS.Math_round (step * JS.ofZ (Z.of_nat i))%float))
      (seq 1 (Z.to_nat count)).

(** The same effect on the selected step: back to 0 when it has reached
    [layerCount]. *)
Definition resetStep (layers selected : Z) : Z :=
  if layers <=? selected then 0 else selected.

(** The defaults the ink effect pads with. *)
Definition defaultInks : list string :=
  ["#facc15"%string; "#ef4444"%string; "#1e40af"%string; "#171717"%string].

(** [while (newInks.length < neededInks) newInks.push(defaults[newInks.length]
    || '#000000')], for the [n] pushes it makes. *)
Fixpoint pushDefaults (n : nat) (newInks : list string) : list string :=
  match n with
  | O => newInks
  | S n' =>
      pushDefaults n'
        (newInks ++ [nth (length newInks) defaultInks "#000000"%string])
  end.

(** The ink effect's updater; [None] is the RangeError of
    [newInks.length = neededInks] for a negative length. *)
Definition syncInks (layers : Z) (prev : list string) : option (list string) :=
  let neededInks := layers - 1 in
  if Z.of_nat (length prev) =? neededInks then Some prev
  else if Z.of_nat (length prev) <? neededInks
  then Some (pushDefaults (Z.to_nat (neededInks - Z.of_nat (length prev))) prev)
  else if neededInks <? 0 then None
  else Some (firstn (Z.to_nat neededInks) prev).

(** [startCropMode]. *)
Definition startCropMode (st : Crop.State) : Crop.State :=
  match Crop.originalImageRef st with
  | None => st
  | Some m =>
      Crop.mkState (Crop.image st) (Crop.imageDimensions st) true
        (match Crop.cropRect st with
         | Some rect => Some rect
         | None => Some (mkRect 0 0 (width m) (height m))
         end)
        (Crop.sourceImageRef st) (Crop.originalImageRef st)
  end.

(** [resetToOriginal]. *)
Definition resetToOriginal (st : Crop.State) : Crop.State :=
  match Crop.originalImageRef st with
  | None => st
  | Some m =>
      Crop.mkState (Some m) (width m, height m) false
        (Some (mkRect 0 0 (width m) (height m)))
        (Some m) (Some m)
  end.

(** The configurations [handleDownloadAll] renders with: the state merged
    with [{activeTab: 'composite', isCropping: false}], and with
    [{activeTab: 'layers', selectedLayerIndex: i, inverted, cutMode,
    isCropping: false}]. *)
Definition previewOverrides (c : Config) : Config :=
  mkConfig composite (layerCount c) (thresholds c) (blurAmount c)
           (selectedLayerIndex c) (inverted c) (cutMode c) (isColorMode c)
           (paperColor c) (inkColors c) (blendMode c) false (cropRect c).

Definition stepOverrides (i : Z) (c : Config) : Config :=
  mkConfig layers (layerCount c) (thresholds c) (blurAmount c)
           i (inverted c) (cutMode c) (isColorMode c)
           (paperColor c) (inkColors c) (blendMode c) false (cropRect c).

(** A number in a template literal: its decimal digits. *)
Definition numberToString (z : Z) : string :=
  NilZero.string_of_int (Z.to_int z).

(** The name of the file of step [i] (counted from 0). *)
Definition stepFileName (mode : CutMode) (i : Z) : string :=
  let modePrefix := match mode with
                    | zone => "isolated"%string
                    | stack => "reduction"%string
                    end in
  ("linocut-" ++ modePrefix ++ "-0" ++ numberToString (i + 1)
   ++ "-step-" ++ numberToString (i + 1) ++ ".png")%string.

(** A file handed to [downloadFile]: its name and what the temporary
    canvas holds after the render before it. *)
Record Download : Type := mkDownload { filename : string; content : Outcome }.

(** The loop of [handleDownloadAll] over the steps; a render that throws
    rejects the whole export at that point.  The flag tells whether the loop
    ran to its end. *)
Fixpoint exportSteps (original : bool) (c : Config) (drawn : ImageData)
    (steps : list Z) : list Download * bool :=
  match steps with
  | [] => ([], true)
  | i :: rest =>
      match renderToContext original true (stepOverrides i c) drawn with
      | Thrown => ([], false)
      | shown =>
          let '(files, done) := exportSteps original c drawn rest in
          (mkDownload (stepFileName (cutMode c) i) shown :: files, done)
      end
  end.

(** [handleDownloadAll]: the files downloaded, in order, and the value of
    [isExporting] it leaves.  [drawn] is what the temporary canvas holds once
    the working image is drawn on it. *)
Definition handleDownloadAll (original source isExporting : bool)
    (c : Config) (drawn : ImageData) : list Download * bool :=
  if negb source then ([], isExporting)
  else
    match renderToContext original true (previewOverrides c) drawn with
    | Thrown => ([], true)
    | shown =>
        let '(files, done) :=
          exportSteps original c drawn (Crop.range (layerCount c - 1)) in
        (mkDownload "linocut-00-preview.png"%string shown :: files, negb done)
    end.

(** A configuration with other thresholds. *)
Definition setThresholds (ts : list Z) (c : Config) : Config :=
  mkConfig (activeTab c) (layerCount c) ts (blurAmount c)
           (selectedLayerIndex c) (inverted c) (cutMode c) (isColorMode c)
           (paperColor c) (inkColors c) (blendMode c) (isCropping c)
           (cropRect c).

(** Strictly ascending from above [lo], decided. *)
Fixpoint ascendingb (lo : Z) (l : list Z) : bool :=
  match l with
  | [] => true
  | x :: rest => (lo <? x) && ascendingb x rest
  end.

(** The default threshold [i] of [layers] layers in exact arithmetic:
    [255 / layers * i] rounded to the nearest integer, a half going up. *)
Definition spec_threshold (layers i : Z) : Z :=
  (2 * 255 * i + layers) / (2 * layers).

Fixpoint listEqb (l l' : list Z) : bool :=
  match l, l' with
  | [], [] => true
  | x :: r, y :: r' => (x =? y) && listEqb r r'
  | _, _ => false
  end.

(** The layer counts for which the default thresholds are checked against
    their exact values. *)
Definition exactLayers : list Z := map Z.of_nat (seq 2 48).

(** The crop controls, and a run of them from left to right. *)
Inductive CropOp : Type := StartCrop | ApplyCrop | ResetCrop.

Definition runCropOp (drawImage : ImageData -> Z -> Z -> Z -> Z -> ImageData)
    (st : Crop.State) (op : CropOp) : Crop.State :=
  match op with
  | StartCrop => startCropMode st
  | ApplyCrop => Crop.applyCrop drawImage st
  | ResetCrop => resetToOriginal st
  end.

Definition runCropOps (drawImage : ImageData -> Z -> Z -> Z -> Z -> ImageData)
    (ops : list CropOp) (st : Crop.State) : Crop.State :=
  fold_left (runCropOp drawImage) ops st.

(** A text without a minus sign. *)
Definition noDash (s : string) : Prop :=
  forall ch, In ch (list_ascii_of_string s) -> ch <> "-"%char.

(** A configuration with another cut strategy. *)
Definition setCutMode (mode : CutMode) (c : Config) : Config :=
  mkConfig (activeTab c) (layerCount c) (thresholds c) (blurAmount c)
           (selectedLayerIndex c) (inverted c) mode (isColorMode c)
           (paperColor c) (inkColors c) (blendMode c) (isCropping c)
           (cropRect c).

(** Pixel [i] of the render of [imageData] is black. *)
Definition blackAt (c : Config) (imageData : ImageData) (i : nat) : Prop :=
  exists out a,
    renderImageData c imageData = Painted out /\
    nth_error (pixelsOf (data out)) i = Some (black a).

(** Channel-wise order on integer colours. *)
Definition darkerEq (x y : Z * Z * Z) : Prop :=
  let '(r1, g1, b1) := x in
  let '(r2, g2, b2) := y in
  r1 <= r2 /\ g1 <= g2 /\ b1 <= b2.

(** A colour as a [#rrggbb] text, the way a colour input reports it. *)
Definition hexChar (v : Z) : ascii :=
  ascii_of_nat (Z.to_nat (if v <? 10 then 48 + v else 87 + v)).

Definition toHex (t : Z * Z * Z) : string :=
  let '(vr, vg, vb) := t in
  String "#"%char
    (String (hexChar (vr / 16)) (String (hexChar (vr mod 16))
    (String (hexChar (vg / 16)) (String (hexChar (vg mod 16))
    (String (hexChar (vb / 16)) (String (hexChar (vb mod 16))
     EmptyString)))))).

(** ASCII upper case. *)
Definition upcase (ch : ascii) : ascii :=
  let n := nat_of_ascii ch in
  if ((97 <=? n) && (n <=? 122))%nat then ascii_of_nat (n - 32) else ch.

Fixpoint upcaseString (s : string) : string :=
  match s with
  | EmptyString => EmptyString
  | String ch rest => String (upcase ch) (upcaseString rest)
  end.

(** ** Sample inputs *)

(** The configuration of the end-to-end scenarios: three layers, thresholds
    85 and 170, white paper and the first two default inks. *)
Definition scenario (tab : Tab) (mode : CutMode) (step : Z) (inv : bool)
  : Config :=
  mkConfig tab 3 [85; 170] 0%float step inv mode false
           "#ffffff"%string ["#facc15"%string; "#ef4444"%string] multiply false None.

(** A [w] by [h] image of one colour. *)
Definition uniformImage (w h : nat) (px : list Z) : ImageData :=
  mkImageData (Z.of_nat w) (Z.of_nat h) (concat (repeat px (w * h))).

Definition midGray : ImageData := uniformImage 4 4 [128; 128; 128; 255].

(** The one edge case the specification defines instead of rejecting:
    stack mode with a negative [thresholdIndex]. *)
Definition stack_exhausted (c : Config) : Prop :=
  activeTab c = layers /\ cutMode c = stack /\
  (layerCount c - 2) - selectedLayerIndex c < 0.

(** Four malformed configurations, one per way of being malformed. *)
Definition oneLayer : Config :=
  mkConfig composite 1 [] 0%float 0 false stack false
           "#ffffff"%string [] multiply false None.

Definition missingThreshold : Config :=
  mkConfig composite 3 [85] 0%float 0 false stack false
           "#ffffff"%string ["#facc15"%string; "#ef4444"%string]
           multiply false None.

Definition stepOutOfRange : Config :=
  mkConfig layers 3 [85; 170] 0%float 5 false zone false
           "#ffffff"%string ["#facc15"%string; "#ef4444"%string]
           multiply false None.

Definition missingInk : Config :=
  mkConfig composite 3 [85; 170] 0%float 0 false stack true
           "#ffffff"%string ["#facc15"%string] multiply false None.

(** A master image and a component state for the crop examples. *)
Definition master : ImageData :=
  mkImageData 3 2 [ 1; 2; 3; 255;   4; 5; 6; 255;   7; 8; 9; 255;
                    10; 11; 12; 255; 13; 14; 15; 255; 16; 17; 18; 255 ].

Definition cropping (rect : CropRect) : Crop.State :=
  Crop.mkState (Some master) (3, 2) true (Some rect) (Some master) (Some master).

(** The layer counts the exhaustive check of the grey level covers. *)
Definition grayLayers : list Z := map Z.of_nat (seq 2 63).

(** * Properties *)

(** ** The sorted thresholds *)

Lemma insertAsc_perm (x : Z) (l : list Z) : Permutation (x :: l) (insertAsc x l).
Proof.
  induction l as [|y rest IH]; simpl.
  - apply Permutation_refl.
  - destruct (x <=? y).
    + apply Permutation_refl.
    + eapply perm_trans; [apply perm_swap|].
      apply perm_skip, IH.
Qed.

Lemma sortAsc_perm (l : list Z) : Permutation l (sortAsc l).
Proof.
  induction l as [|x rest IH]; simpl.
  - apply perm_nil.
  - eapply perm_trans; [apply perm_skip, IH | apply insertAsc_perm].
Qed.

Lemma sortAsc_length (l : list Z) : length (sortAsc l) = length l.
Proof. symmetry. apply Permutation_length, sortAsc_perm. Qed.

Lemma insertAsc_sorted (x : Z) (l : list Z) :
  StronglySorted Z.le l -> StronglySorted Z.le (insertAsc x l).
Proof.
  induction 1 as [|y rest Hs IH Hall]; simpl.
  - repeat constructor.
  - destruct (Z.leb_spec x y) as [Hle|Hgt].
    + constructor.
      * constructor; assumption.
      * constructor; [assumption|].
        eapply Forall_impl; [|exact Hall]. intros z Hz. simpl in Hz. lia.
    + constructor; [exact IH|].
      eapply Permutation_Forall; [apply insertAsc_perm|].
      constructor; [lia | exact Hall].
Qed.

Lemma sortAsc_sorted (l : list Z) : StronglySorted Z.le (sortAsc l).
Proof.
  induction l as [|x rest IH]; simpl.
  - constructor.
  - apply insertAsc_sorted, IH.
Qed.

Lemma sortAsc_Forall (P : Z -> Prop) (l : list Z) :
  Forall P l -> Forall P (sortAsc l).
Proof. intro H. eapply Permutation_Forall; [apply sortAsc_perm | exact H]. Qed.

Lemma StronglySorted_nth_le (l : list Z) (i j : nat) (x y : Z) :
  StronglySorted Z.le l -> (i <= j)%nat ->
  nth_error l i = Some x -> nth_error l j = Some y -> x <= y.
Proof.
  intros Hs. revert i j.
  induction Hs as [|z rest Hs IH Hall]; intros i j Hij Hi Hj.
  - destruct i; discriminate.
  - destruct i as [|i]; destruct j as [|j]; simpl in Hi, Hj.
    + injection Hi as <-. injection Hj as <-. lia.
    + injection Hi as <-. apply nth_error_In in Hj.
      rewrite Forall_forall in Hall. apply Hall, Hj.
    + lia.
    + apply (IH i j); [lia | assumption | assumption].
Qed.

(** ** The threshold scan *)

Lemma scanThresholds_Some (gray : float) (ts : list Z) (t0 t : Z) :
  scanThresholds gray ts t0 = Some t ->
  exists (k : nat) (x : Z),
    t = t0 + Z.of_nat k /\ nth_error ts k = Some x /\
    JS.lt gray (JS.ofZ x) = true /\
    forall (j : nat) (y : Z), (j < k)%nat -> nth_error ts j = Some y ->
                              JS.lt gray (JS.ofZ y) = false.
Proof.
  revert t0. induction ts as [|x rest IH]; intros t0 H; simpl in H.
  - discriminate.
  - destruct (JS.lt gray (JS.ofZ x)) eqn:Hx.
    + injection H as <-. exists O, x. repeat split; auto.
      * lia.
      * intros j y Hj. lia.
    + destruct (IH _ H) as (k & x' & Ht & Hn & Hlt & Hbefore).
      exists (S k), x'. repeat split; auto.
      * lia.
      * intros [|j] y Hj Hy; simpl in Hy.
        -- injection Hy as <-. exact Hx.
        -- apply (Hbefore j); [lia | exact Hy].
Qed.

Lemma scanThresholds_None (gray : float) (ts : list Z) (t0 : Z) :
  scanThresholds gray ts t0 = None <->
  (forall x, In x ts -> JS.lt gray (JS.ofZ x) = false).
Proof.
  revert t0. induction ts as [|x rest IH]; intros t0; simpl.
  - split; [intros _ y [] | reflexivity].
  - destruct (JS.lt gray (JS.ofZ x)) eqn:Hx.
    + split; [discriminate|]. intros H.
      rewrite (H x (or_introl eq_refl)) in Hx. discriminate.
    + rewrite IH. split.
      * intros H y [<-|Hy]; auto.
      * intros H y Hy. apply H. now right.
Qed.

Lemma scanThresholds_first (gray : float) (ts : list Z) (t0 : Z) (k : nat) (x : Z) :
  nth_error ts k = Some x ->
  JS.lt gray (JS.ofZ x) = true ->
  (forall (j : nat) (y : Z), (j < k)%nat -> nth_error ts j = Some y ->
                             JS.lt gray (JS.ofZ y) = false) ->
  scanThresholds gray ts t0 = Some (t0 + Z.of_nat k).
Proof.
  revert t0 k. induction ts as [|z rest IH]; intros t0 k Hk Hlt Hbefore.
  - destruct k; discriminate.
  - simpl. destruct k as [|k]; simpl in Hk.
    + injection Hk as ->. rewrite Hlt. f_equal. lia.
    + rewrite (Hbefore O z) by (simpl; auto; lia).
      rewrite (IH (t0 + 1) k Hk Hlt).
      * f_equal. lia.
      * intros j y Hj Hy. apply (Hbefore (S j)); [lia | exact Hy].
Qed.

Lemma bucketIndex_range (layers : Z) (sorted : list Z) (gray : float) :
  Z.of_nat (length sorted) = layers - 1 ->
  0 <= bucketIndex layers sorted gray <= layers - 1.
Proof.
  intros Hlen. unfold bucketIndex.
  destruct (scanThresholds gray sorted 0) as [t|] eqn:Hscan.
  - destruct (scanThresholds_Some _ _ _ _ Hscan) as (k & x & -> & Hn & _).
    assert (k < length sorted)%nat by (apply nth_error_Some; congruence).
    lia.
  - lia.
Qed.

(** ** Doubles *)

(** Numbers that compare equal compare alike with any third number. *)
Lemma SFeqb_finite_inv (s1 s2 : bool) (m1 m2 : positive) (e1 e2 : Z) :
  SFeqb (S754_finite s1 m1 e1) (S754_finite s2 m2 e2) = true ->
  s1 = s2 /\ m1 = m2 /\ e1 = e2.
Proof.
  unfold SFeqb; simpl.
  change (Pos.compare_cont Eq m1 m2) with (Pos.compare m1 m2).
  destruct s1, s2; try discriminate;
    destruct (e1 ?= e2) eqn:He; try discriminate;
    destruct (m1 ?= m2)%positive eqn:Hm; simpl; try discriminate;
    apply Z.compare_eq in He; apply Pos.compare_eq in Hm; auto.
Qed.

Lemma SFeqb_ltb_compat (a b c : spec_float) :
  SFeqb a b = true -> SFltb a c = SFltb b c.
Proof.
  intros H.
  destruct a as [sa|sa| |sa ma ea], b as [sb|sb| |sb mb eb];
    try (apply SFeqb_finite_inv in H; destruct H as (-> & -> & ->); reflexivity);
    unfold SFeqb in H; simpl in H;
    repeat match goal with s : bool |- _ => destruct s end;
    try discriminate H; destruct c; reflexivity.
Qed.

Lemma lt_eqb_compat (x y z : float) :
  PrimFloat.eqb x y = true -> JS.lt x z = JS.lt y z.
Proof.
  unfold JS.lt. rewrite eqb_spec, !ltb_spec. apply SFeqb_ltb_compat.
Qed.

Lemma In_bytes (x : Z) : 0 <= x <= 255 -> In x bytes.
Proof.
  intros H. unfold bytes. apply in_map_iff.
  exists (Z.to_nat x). split; [lia|]. apply in_seq. lia.
Qed.

(** The conversion of a byte to a double keeps the order. *)
Lemma ofZ_bytes_order_check :
  forallb (fun x => forallb (fun y =>
     Bool.eqb (JS.lt (JS.ofZ x) (JS.ofZ y)) (x <? y)) bytes) bytes = true.
Proof. vm_compute. reflexivity. Qed.

Lemma ofZ_bytes_lt (x y : Z) :
  0 <= x <= 255 -> 0 <= y <= 255 ->
  JS.lt (JS.ofZ x) (JS.ofZ y) = (x <? y).
Proof.
  intros Hx Hy.
  pose proof ofZ_bytes_order_check as T.
  rewrite forallb_forall in T. specialize (T x (In_bytes x Hx)).
  rewrite forallb_forall in T. specialize (T y (In_bytes y Hy)).
  now apply Bool.eqb_prop in T.
Qed.

Lemma ofZ_bytes_not_lt (x y : Z) :
  0 <= x <= 255 -> 0 <= y <= 255 -> y <= x ->
  JS.lt (JS.ofZ x) (JS.ofZ y) = false.
Proof.
  intros Hx Hy Hle. rewrite ofZ_bytes_lt by assumption.
  apply Z.ltb_ge, Hle.
Qed.

(** On bytes the multiply blend of the program is the integer formula of
    the specification: the double division never crosses an integer. *)
Lemma blendChannel_rows :
  Forall (fun a =>
            map (fun c => blendChannel (JS.ofZ a) (JS.ofZ c)) bytes =
            map (fun c => JS.ofZ (a * c / 255)) bytes) bytes.
Proof.
  let l := eval vm_compute in bytes in change bytes with l at 3.
  repeat (apply Forall_cons; [vm_compute; reflexivity|]).
  apply Forall_nil.
Qed.

Lemma blendChannel_bytes (a c : Z) :
  0 <= a <= 255 -> 0 <= c <= 255 ->
  blendChannel (JS.ofZ a) (JS.ofZ c) = JS.ofZ (a * c / 255).
Proof.
  intros Ha Hc.
  pose proof blendChannel_rows as T.
  rewrite Forall_forall in T.
  specialize (T a (In_bytes a Ha)).
  apply (ext_in_map T), In_bytes, Hc.
Qed.

(** A byte stored in a clamped array is read back unchanged. *)
Lemma toUint8Clamp_bytes_check :
  forallb (fun x => JS.toUint8Clamp (JS.ofZ x) =? x) bytes = true.
Proof. vm_compute. reflexivity. Qed.

Lemma toUint8Clamp_ofZ (x : Z) :
  0 <= x <= 255 -> JS.toUint8Clamp (JS.ofZ x) = x.
Proof.
  intros Hx. pose proof toUint8Clamp_bytes_check as T.
  rewrite forallb_forall in T. apply Z.eqb_eq, T, In_bytes, Hx.
Qed.

(** Up to 64 layers the grey level the program stores is the exactly
    rounded one. *)
Lemma grayValue_check :
  forallb (fun n => forallb (fun k =>
     (n - 1 <? k) || (grayValue n k =? spec_gray n k)) bytes) grayLayers = true.
Proof. vm_compute. reflexivity. Qed.

Lemma grayValue_exact (layers bucket : Z) :
  2 <= layers <= 64 -> 0 <= bucket <= layers - 1 ->
  grayValue layers bucket = spec_gray layers bucket.
Proof.
  intros Hn Hk. pose proof grayValue_check as T.
  rewrite forallb_forall in T.
  assert (Hin : In layers grayLayers).
  { unfold grayLayers. apply in_map_iff. exists (Z.to_nat layers).
    split; [lia|]. apply in_seq. lia. }
  specialize (T layers Hin). rewrite forallb_forall in T.
  specialize (T bucket (In_bytes bucket ltac:(lia))).
  apply orb_true_iff in T. destruct T as [T|T].
  - apply Z.ltb_lt in T. lia.
  - now apply Z.eqb_eq in T.
Qed.

(** ** The processing loop *)

(** Induction over a byte sequence, one pixel at a time. *)
Lemma quad_ind (P : list Z -> Prop) :
  (forall l, (length l < 4)%nat -> P l) ->
  (forall r g b a rest, P rest -> P (r :: g :: b :: a :: rest)) ->
  forall l, P l.
Proof.
  intros Hshort Hquad. fix IH 1.
  intros [|r [|g [|b [|a rest]]]]; try (apply Hshort; simpl; lia).
  apply Hquad, IH.
Qed.

Section Loop.

Variable c : Config.
Variable sorted : list Z.
Variable colors : list (option rgb).

Lemma processLoop_quad (r g b a : Z) (rest : list Z) :
  processLoop c sorted colors (r :: g :: b :: a :: rest) =
  match processPixel c sorted colors r g b with
  | Some (r', g', b') =>
      match processLoop c sorted colors rest with
      | Some rest' => Some (r' :: g' :: b' :: a :: rest')
      | None => None
      end
  | None => None
  end.
Proof. reflexivity. Qed.

(** When the loop body is defined on every pixel, the loop runs to the
    end: the data keeps its length, every pixel keeps its alpha byte and
    gets the colour bytes of the body. *)
Lemma processLoop_total (f : Z -> Z -> Z -> Z * Z * Z) (d : list Z) :
  (forall r g b, processPixel c sorted colors r g b = Some (f r g b)) ->
  exists out,
    processLoop c sorted colors d = Some out /\
    length out = length d /\
    pixelsOf out = map (mapPixel f) (pixelsOf d).
Proof.
  intros Hf. induction d as [l Hl | r g b a rest IH] using quad_ind.
  - exists l. destruct l as [|x [|y [|z [|w l]]]]; simpl in *; auto; lia.
  - destruct IH as (out & Hout & Hlen & Hpix).
    destruct (f r g b) as [[r' g'] b'] eqn:Hfp.
    exists (r' :: g' :: b' :: a :: out).
    rewrite processLoop_quad, Hf, Hfp, Hout. simpl.
    rewrite Hlen, Hpix, Hfp. auto.
Qed.

(** When the loop ends, it ended by running the body on every pixel. *)
Lemma processLoop_Some (d out : list Z) :
  processLoop c sorted colors d = Some out ->
  length out = length d /\
  Forall2 (fun p q =>
             let '(r, g, b, a) := p in
             let '(r', g', b', a') := q in
             processPixel c sorted colors r g b = Some (r', g', b') /\ a' = a)
          (pixelsOf d) (pixelsOf out).
Proof.
  revert out. induction d as [l Hl | r g b a rest IH] using quad_ind; intros out H.
  - destruct l as [|x [|y [|z [|w l]]]]; simpl in *; try lia;
      injection H as <-; simpl; auto.
  - rewrite processLoop_quad in H.
    destruct (processPixel c sorted colors r g b) as [[[r' g'] b']|] eqn:Hp;
      [|discriminate].
    destruct (processLoop c sorted colors rest) as [rest'|] eqn:Hrest;
      [|discriminate].
    injection H as <-. destruct (IH _ eq_refl) as [Hlen Hall].
    simpl. split; [now rewrite Hlen|]. constructor; auto.
Qed.

End Loop.

Lemma renderImageData_total (c : Config) (f : Z -> Z -> Z -> Z * Z * Z)
    (imageData : ImageData) :
  (forall r g b,
      processPixel c (sortedThresholds c) (bucketColors c) r g b
      = Some (f r g b)) ->
  exists out,
    renderImageData c imageData = Painted out /\
    width out = width imageData /\ height out = height imageData /\
    length (data out) = length (data imageData) /\
    pixelsOf (data out) = map (mapPixel f) (pixelsOf (data imageData)).
Proof.
  intros Hf.
  destruct (processLoop_total c _ _ f (data imageData) Hf)
    as (d & Hd & Hlen & Hpix).
  exists (mkImageData (width imageData) (height imageData) d).
  unfold renderImageData. rewrite Hd. simpl. auto.
Qed.

(** The early returns of [renderToContext] aside, a render is the pixel
    loop. *)
Lemma renderToContext_normal (original : bool) (c : Config) (imageData : ImageData) :
  isCropping c = false ->
  renderToContext original true c imageData = renderImageData c imageData.
Proof. intros H. unfold renderToContext. now rewrite H. Qed.

(** ** The stencil colours *)


Lemma stencil_bitonal (inv keep : bool) :
  stencil inv keep = 0 \/ stencil inv keep = 255.
Proof. destruct inv, keep; simpl; auto. Qed.

Lemma stencil_flip (keep : bool) :
  (stencil false keep = 0 /\ stencil true keep = 255) \/
  (stencil false keep = 255 /\ stencil true keep = 0).
Proof. destruct keep; simpl; auto. Qed.

(** ** The grayscale bucketizer *)

(** The luminance of mid grey is not 128: the three products are rounded,
    and their sum falls one unit in the last place short of it. *)
Example luminance_midGray_below_128 :
  JS.lt (luminance 128 128 128) (JS.ofZ 128) = true.
Proof. vm_compute. reflexivity. Qed.

(** So a mid-grey pixel is below a threshold of 128, in the darker bucket,
    while a black pixel meets a threshold of 0 exactly and goes to the
    lighter one. *)
Example bucket_of_midGray_at_128 :
  bucketIndex 3 [128; 170] (luminance 128 128 128) = 0 /\
  bucketIndex 3 [0; 170] (luminance 0 0 0) = 1.
Proof. split; vm_compute; reflexivity. Qed.

(** C1, amended.  For a pixel and an ascending sequence of
    [layerCount - 1] byte thresholds, the bucketizer computes the luminance
    [0.299 R + 0.587 G + 0.114 B] in double arithmetic, each product and
    each sum rounded, and returns the index of the first threshold strictly
    greater than that double, or [layerCount - 1] when no threshold exceeds
    it; the bucket lies in [0, layerCount - 1].  A computed luminance equal
    to the threshold at index [t] lands in a bucket above [t]: in bucket
    [t + 1] when the next threshold is larger or when there is no next
    threshold. *)
Theorem bucketizer_first_greater_threshold
    (layers : Z) (T : list Z) (r g b : Z) :
  StronglySorted Z.le T ->
  Z.of_nat (length T) = layers - 1 ->
  Forall (fun x => 0 <= x <= 255) T ->
  let L := luminance r g b in
  let k := bucketIndex layers T L in
  L = (0.299 * JS.ofZ r + 0.587 * JS.ofZ g + 0.114 * JS.ofZ b)%float /\
  0 <= k <= layers - 1 /\
  ((exists (t : nat) (x : Z),
       k = Z.of_nat t /\ nth_error T t = Some x /\
       JS.lt L (JS.ofZ x) = true /\
       forall (j : nat) (y : Z), (j < t)%nat -> nth_error T j = Some y ->
                                 JS.lt L (JS.ofZ y) = false)
   \/ (k = layers - 1 /\
       forall x, In x T -> JS.lt L (JS.ofZ x) = false)) /\
  (forall (t : nat) (x : Z),
      nth_error T t = Some x -> PrimFloat.eqb L (JS.ofZ x) = true ->
      Z.of_nat t < k /\
      (forall y, nth_error T (S t) = Some y -> x < y -> k = Z.of_nat t + 1) /\
      (nth_error T (S t) = None -> k = Z.of_nat t + 1)).
Proof.
  intros Hsorted Hlen Hbytes L k.
  split; [reflexivity|].
  split; [apply bucketIndex_range, Hlen|].
  assert (Hchar :
    (exists (t : nat) (x : Z),
       k = Z.of_nat t /\ nth_error T t = Some x /\
       JS.lt L (JS.ofZ x) = true /\
       forall (j : nat) (y : Z), (j < t)%nat -> nth_error T j = Some y ->
                                 JS.lt L (JS.ofZ y) = false)
    \/ (k = layers - 1 /\
        forall x, In x T -> JS.lt L (JS.ofZ x) = false)).
  { subst k. unfold bucketIndex.
    destruct (scanThresholds L T 0) as [t|] eqn:Hscan.
    - left. destruct (scanThresholds_Some _ _ _ _ Hscan)
        as (n & x & -> & Hn & Hlt & Hbefore).
      exists n, x. auto.
    - right. split; [reflexivity|].
      exact (proj1 (scanThresholds_None _ _ _) Hscan). }
  split; [exact Hchar|].
  intros t x Ht Heq.
  assert (Htlen : (t < length T)%nat) by (apply nth_error_Some; congruence).
  rewrite Forall_forall in Hbytes.
  assert (Hx : 0 <= x <= 255) by (apply Hbytes; eapply nth_error_In, Ht).
  assert (Hcmp : forall y, In y T -> JS.lt L (JS.ofZ y) = (x <? y)).
  { intros y Hy. rewrite (lt_eqb_compat _ _ _ Heq).
    apply ofZ_bytes_lt; [exact Hx | apply Hbytes, Hy]. }
  assert (Habove : Z.of_nat t < k).
  { destruct Hchar as [(n & y & Hk & Hn & Hlt & _) | [Hk _]]; [|lia].
    rewrite Hk. destruct (Nat.le_gt_cases n t) as [Hle|Hgt]; [|lia].
    exfalso. rewrite (Hcmp y) in Hlt by (eapply nth_error_In, Hn).
    apply Z.ltb_lt in Hlt.
    pose proof (StronglySorted_nth_le T n t y x Hsorted Hle Hn Ht). lia. }
  split; [exact Habove|]. split.
  - intros y Hy Hxy.
    destruct Hchar as [(n & z & Hk & Hn & _ & Hbefore) | [_ Hnone]].
    + destruct (Nat.le_gt_cases n (S t)) as [Hle|Hgt]; [lia|].
      specialize (Hbefore (S t) y Hgt Hy).
      rewrite (Hcmp y) in Hbefore by (eapply nth_error_In, Hy).
      apply Z.ltb_ge in Hbefore. lia.
    + specialize (Hnone y (nth_error_In _ _ Hy)).
      rewrite (Hcmp y) in Hnone by (eapply nth_error_In, Hy).
      apply Z.ltb_ge in Hnone. lia.
  - intros Hlast. apply nth_error_None in Hlast.
    destruct Hchar as [(n & z & Hk & Hn & _) | [Hk _]]; [|lia].
    assert (n < length T)%nat by (apply nth_error_Some; congruence). lia.
Qed.

Lemma bucketizer_first_greater_threshold_witness :
  0 <= bucketIndex 3 [85; 170] (luminance 128 128 128) <= 3 - 1.
Proof.
  refine (proj1 (proj2
    (bucketizer_first_greater_threshold 3 [85; 170] 128 128 128 _ _ _))).
  - repeat constructor. lia.
  - reflexivity.
  - repeat constructor; lia.
Defined.

(** C1, as worded, fails: the tie rule does not hold for the luminance
    [0.299 R + 0.587 G + 0.114 B] itself.  The luminance of the mid-grey
    pixel (128,128,128) is exactly 128; with three layers and the ascending
    thresholds [128; 170] the first threshold strictly greater than it is
    170, bucket 1, but the double the code computes is below 128 and the
    code returns bucket 0.  The same happens with the four-layer defaults
    [64; 128; 191] at the grey levels 64 and 128 (and not at 191); the
    pixels (1,189,147) and (8,200,72) have the same luminance 128 and get
    different buckets under the threshold 128; and of the 256 grey levels,
    65 have a computed luminance below the grey level, none above. *)
Theorem bucketizer_exact_tie_in_darker_bucket :
  (spec_luminance1000 128 128 128 = 1000 * 128 /\
   StronglySorted Z.le [128; 170] /\
   Z.of_nat (length [128; 170]) = 3 - 1 /\
   spec_bucket 3 [128; 170] 128 128 128 = 1 /\
   JS.lt (luminance 128 128 128) (JS.ofZ 128) = true /\
   bucketIndex 3 [128; 170] (luminance 128 128 128) = 0) /\
  (initThresholds 4 = [64; 128; 191] /\
   spec_bucket 4 [64; 128; 191] 64 64 64 = 1 /\
   bucketIndex 4 [64; 128; 191] (luminance 64 64 64) = 0 /\
   spec_bucket 4 [64; 128; 191] 128 128 128 = 2 /\
   bucketIndex 4 [64; 128; 191] (luminance 128 128 128) = 1 /\
   spec_bucket 4 [64; 128; 191] 191 191 191 = 3 /\
   bucketIndex 4 [64; 128; 191] (luminance 191 191 191) = 3) /\
  (spec_luminance1000 1 189 147 = 1000 * 128 /\
   spec_luminance1000 8 200 72 = 1000 * 128 /\
   bucketIndex 2 [128] (luminance 1 189 147) = 1 /\
   bucketIndex 2 [128] (luminance 8 200 72) = 0) /\
  (length (filter (fun v => JS.lt (luminance v v v) (JS.ofZ v)) bytes) = 65%nat /\
   forallb (fun v => negb (JS.lt (JS.ofZ v) (luminance v v v))) bytes = true).
Proof.
  split; [|split; [|split]].
  - repeat split; try (vm_compute; reflexivity).
    repeat constructor; lia.
  - repeat split; vm_compute; reflexivity.
  - repeat split; vm_compute; reflexivity.
  - split; vm_compute; reflexivity.
Qed.

(** ** The cut-guide generator *)

Lemma processPixel_layers (c : Config) (r g b : Z) :
  activeTab c = layers ->
  processPixel c (sortedThresholds c) (bucketColors c) r g b
  = Some (cutBytes c r g b).
Proof.
  intros Htab. unfold processPixel, cutBytes, zoneBytes, stackBytes.
  rewrite Htab. destruct (cutMode c); [|reflexivity].
  destruct (_ <? 0); reflexivity.
Qed.

(** A cut-guide render never fails, and rewrites each pixel on its own. *)
Lemma render_layers (c : Config) (imageData : ImageData) :
  activeTab c = layers ->
  exists out,
    renderImageData c imageData = Painted out /\
    width out = width imageData /\ height out = height imageData /\
    length (data out) = length (data imageData) /\
    pixelsOf (data out) = map (mapPixel (cutBytes c)) (pixelsOf (data imageData)).
Proof.
  intros Htab. apply renderImageData_total.
  intros r g b. now apply processPixel_layers.
Qed.

Lemma cutBytes_bitonal (c : Config) (p : Z * Z * Z * Z) :
  bitonal p (mapPixel (cutBytes c) p).
Proof.
  destruct p as [[[r g] b] a]. unfold bitonal, mapPixel, cutBytes.
  destruct (cutMode c); unfold stackBytes, zoneBytes, black, white.
  - destruct (_ <? 0); [now right|].
    destruct (stencil_bitonal (inverted c)
                (JS.ltUndef (luminance r g b)
                   (JS.lookup (sortedThresholds c)
                      (Z.of_nat (length (sortedThresholds c)) - 1
                       - selectedLayerIndex c)))) as [-> | ->]; auto.
  - destruct (stencil_bitonal (inverted c)
                (bucketIndex (layerCount c) (sortedThresholds c)
                   (luminance r g b)
                 =? layerCount c - 1 - (selectedLayerIndex c + 1)))
      as [-> | ->]; auto.
Qed.







Lemma Forall2_map_self {A B : Type} (R : A -> B -> Prop) (f : A -> B) (l : list A) :
  (forall x, R x (f x)) -> Forall2 R l (map f l).
Proof. intros H. induction l; simpl; constructor; auto. Qed.

(** C7.  The cut-guide output is strictly bitonal, whatever the layer
    count, the step, the inversion flag and the strategy: the render
    succeeds, the buffer keeps its dimensions and length, and every output
    pixel is (0,0,0) or (255,255,255) with the alpha byte of the input
    pixel. *)
Theorem cut_guide_bitonal (c : Config) (imageData : ImageData) :
  activeTab c = layers ->
  exists out,
    renderImageData c imageData = Painted out /\
    width out = width imageData /\ height out = height imageData /\
    length (data out) = length (data imageData) /\
    Forall2 bitonal (pixelsOf (data imageData)) (pixelsOf (data out)).
Proof.
  intros Htab.
  destruct (render_layers c imageData Htab) as (out & Hout & Hw & Hh & Hlen & Hpix).
  exists out. repeat split; auto.
  rewrite Hpix. apply Forall2_map_self, cutBytes_bitonal.
Qed.

Lemma cut_guide_bitonal_witness :
  exists out,
    renderImageData (scenario layers zone 1 true) midGray = Painted out /\
    width out = width midGray /\ height out = height midGray /\
    length (data out) = length (data midGray) /\
    Forall2 bitonal (pixelsOf (data midGray)) (pixelsOf (data out)).
Proof.
  apply (cut_guide_bitonal (scenario layers zone 1 true) midGray).
  reflexivity.
Defined.

Lemma stackBytes_setInverted (v : bool) (c : Config) (r g b : Z) :
  stackBytes (setInverted v c) r g b =
  if Z.of_nat (length (sortedThresholds c)) - 1 - selectedLayerIndex c <? 0
  then (255, 255, 255)
  else
    let out := stencil v (JS.ltUndef (luminance r g b)
                 (JS.lookup (sortedThresholds c)
                    (Z.of_nat (length (sortedThresholds c)) - 1
                     - selectedLayerIndex c))) in
    (out, out, out).
Proof. reflexivity. Qed.

Lemma zoneBytes_setInverted (v : bool) (c : Config) (r g b : Z) :
  zoneBytes (setInverted v c) r g b =
  let out := stencil v
               (bucketIndex (layerCount c) (sortedThresholds c) (luminance r g b)
                =? layerCount c - 1 - (selectedLayerIndex c + 1)) in
  (out, out, out).
Proof. reflexivity. Qed.

Lemma cutBytes_setInverted (v : bool) (c : Config) (r g b : Z) :
  cutBytes (setInverted v c) r g b =
  match cutMode c with
  | zone => zoneBytes (setInverted v c) r g b
  | stack => stackBytes (setInverted v c) r g b
  end.
Proof. reflexivity. Qed.

(** Flipping the flag flips the stencil colour of a pixel, as long as the
    stack branch has a threshold to cut at. *)
Lemma cutBytes_complementary (c : Config) (p : Z * Z * Z * Z) :
  (cutMode c = stack ->
   0 <= Z.of_nat (length (sortedThresholds c)) - 1 - selectedLayerIndex c) ->
  complementary p (mapPixel (cutBytes (setInverted false c)) p)
                  (mapPixel (cutBytes (setInverted true c)) p).
Proof.
  intros Hidx. destruct p as [[[r g] b] a].
  unfold complementary, mapPixel, black, white.
  rewrite !cutBytes_setInverted.
  destruct (cutMode c) eqn:Hmode.
  - specialize (Hidx eq_refl).
    rewrite !stackBytes_setInverted.
    destruct (Z.ltb_spec
                (Z.of_nat (length (sortedThresholds c)) - 1 - selectedLayerIndex c) 0)
      as [Hneg|_]; [lia|].
    cbv zeta.
    destruct (stencil_flip
                (JS.ltUndef (luminance r g b)
                   (JS.lookup (sortedThresholds c)
                      (Z.of_nat (length (sortedThresholds c)) - 1
                       - selectedLayerIndex c)))) as [[-> ->] | [-> ->]]; auto.
  - rewrite !zoneBytes_setInverted. cbv zeta.
    destruct (stencil_flip
                (bucketIndex (layerCount c) (sortedThresholds c)
                   (luminance r g b)
                 =? layerCount c - 1 - (selectedLayerIndex c + 1)))
      as [[-> ->] | [-> ->]]; auto.
Qed.

(** C6.  For a configuration with at least two layers, [layerCount - 1]
    thresholds and a step in [0, layerCount - 2], and for either strategy,
    the cut guides rendered with [inverted] off and on are pixel-wise
    complements: where one is black the other is white, and both keep the
    alpha byte of the input pixel. *)
Theorem inverted_cut_guide_is_complement (c : Config) (imageData : ImageData) :
  activeTab c = layers ->
  2 <= layerCount c ->
  0 <= selectedLayerIndex c <= layerCount c - 2 ->
  Z.of_nat (length (thresholds c)) = layerCount c - 1 ->
  exists o1 o2,
    renderImageData (setInverted false c) imageData = Painted o1 /\
    renderImageData (setInverted true c) imageData = Painted o2 /\
    length (data o1) = length (data imageData) /\
    length (data o2) = length (data imageData) /\
    forall (i : nat) (p : Z * Z * Z * Z),
      nth_error (pixelsOf (data imageData)) i = Some p ->
      exists q1 q2,
        nth_error (pixelsOf (data o1)) i = Some q1 /\
        nth_error (pixelsOf (data o2)) i = Some q2 /\
        complementary p q1 q2.
Proof.
  intros Htab Hlayers Hstep Hlen.
  destruct (render_layers (setInverted false c) imageData Htab)
    as (o1 & Ho1 & _ & _ & Hl1 & Hp1).
  destruct (render_layers (setInverted true c) imageData Htab)
    as (o2 & Ho2 & _ & _ & Hl2 & Hp2).
  exists o1, o2. repeat split; auto.
  intros i p Hi.
  exists (mapPixel (cutBytes (setInverted false c)) p),
         (mapPixel (cutBytes (setInverted true c)) p).
  rewrite Hp1, Hp2, !nth_error_map, Hi. repeat split.
  apply cutBytes_complementary. intros _.
  unfold sortedThresholds. rewrite sortAsc_length. lia.
Qed.

Lemma inverted_cut_guide_is_complement_witness :
  exists o1 o2,
    renderImageData (setInverted false (scenario layers stack 1 false)) midGray
    = Painted o1 /\
    renderImageData (setInverted true (scenario layers stack 1 false)) midGray
    = Painted o2 /\
    length (data o1) = length (data midGray) /\
    length (data o2) = length (data midGray) /\
    forall (i : nat) (p : Z * Z * Z * Z),
      nth_error (pixelsOf (data midGray)) i = Some p ->
      exists q1 q2,
        nth_error (pixelsOf (data o1)) i = Some q1 /\
        nth_error (pixelsOf (data o2)) i = Some q2 /\
        complementary p q1 q2.
Proof.
  apply (inverted_cut_guide_is_complement (scenario layers stack 1 false) midGray).
  - reflexivity.
  - simpl. lia.
  - simpl. lia.
  - reflexivity.
Defined.

Lemma processLoop_ext (c1 c2 : Config) (s1 s2 : list Z)
    (col1 col2 : list (option rgb)) :
  (forall r g b,
      processPixel c1 s1 col1 r g b = processPixel c2 s2 col2 r g b) ->
  forall d, processLoop c1 s1 col1 d = processLoop c2 s2 col2 d.
Proof.
  intros Hext d. induction d as [l Hl | r g b a rest IH] using quad_ind.
  - destruct l as [|x [|y [|z [|w l]]]]; simpl in *; auto; lia.
  - rewrite !processLoop_quad, Hext, IH. reflexivity.
Qed.

(** C10.  In stack mode with [layerCount - 1] thresholds, when
    [thresholdIndex = (layerCount - 2) - selectedStep] is negative the
    stencil is all white for both values of [inverted]: the flag is not
    read on this branch, so the two outputs are the same buffer, not
    complements. *)
Theorem stack_negative_index_all_white (c : Config) (imageData : ImageData) :
  activeTab c = layers -> cutMode c = stack ->
  Z.of_nat (length (thresholds c)) = layerCount c - 1 ->
  (layerCount c - 2) - selectedLayerIndex c < 0 ->
  exists out,
    renderImageData (setInverted false c) imageData = Painted out /\
    renderImageData (setInverted true c) imageData = Painted out /\
    pixelsOf (data out)
    = map (fun p => white (snd p)) (pixelsOf (data imageData)).
Proof.
  intros Htab Hmode Hlen Hneg.
  assert (Hwhite : forall v r g b, cutBytes (setInverted v c) r g b = (255, 255, 255)).
  { intros v r g b.
    rewrite cutBytes_setInverted, Hmode, stackBytes_setInverted.
    unfold sortedThresholds. rewrite sortAsc_length.
    destruct (Z.ltb_spec (Z.of_nat (length (thresholds c)) - 1
                          - selectedLayerIndex c) 0); [reflexivity | lia]. }
  destruct (render_layers (setInverted false c) imageData Htab)
    as (out & Hout & _ & _ & _ & Hpix).
  exists out. split; [exact Hout|]. split.
  - rewrite <- Hout. unfold renderImageData.
    rewrite (processLoop_ext (setInverted true c) (setInverted false c)
               (sortedThresholds (setInverted true c))
               (sortedThresholds (setInverted false c))
               (bucketColors (setInverted true c))
               (bucketColors (setInverted false c))); [reflexivity|].
    intros r g b.
    rewrite !processPixel_layers by exact Htab.
    now rewrite !Hwhite.
  - rewrite Hpix. apply map_ext. intros [[[r g] b] a].
    unfold mapPixel. now rewrite Hwhite.
Qed.

Lemma stack_negative_index_all_white_witness :
  exists out,
    renderImageData (setInverted false (scenario layers stack 2 false)) midGray
    = Painted out /\
    renderImageData (setInverted true (scenario layers stack 2 false)) midGray
    = Painted out /\
    pixelsOf (data out)
    = map (fun p => white (snd p)) (pixelsOf (data midGray)).
Proof.
  apply (stack_negative_index_all_white (scenario layers stack 2 false) midGray).
  - reflexivity.
  - reflexivity.
  - reflexivity.
  - simpl. lia.
Defined.

(** ** The ink compositor *)

Lemma hexDigit_range (ch : ascii) (v : Z) : hexDigit ch = Some v -> 0 <= v <= 15.
Proof.
  unfold hexDigit. set (n := Z.of_nat (nat_of_ascii ch)).
  destruct ((48 <=? n) && (n <=? 57)) eqn:H1;
    [|destruct ((97 <=? n) && (n <=? 102)) eqn:H2;
      [|destruct ((65 <=? n) && (n <=? 70)) eqn:H3]];
    intros H; try discriminate; injection H as <-;
    match goal with
    | Hb : _ && _ = true |- _ =>
        apply andb_true_iff in Hb; destruct Hb as [Hlo Hhi];
        apply Z.leb_le in Hlo; apply Z.leb_le in Hhi; lia
    end.
Qed.

Lemma parseHexPair_range (c1 c2 : ascii) (v : Z) :
  parseHexPair c1 c2 = Some v -> 0 <= v <= 255.
Proof.
  unfold parseHexPair.
  destruct (hexDigit c1) as [h|] eqn:H1; [|discriminate].
  destruct (hexDigit c2) as [l|] eqn:H2; [|discriminate].
  intros H; injection H as Hv. change (16 * h + l = v) in Hv.
  apply hexDigit_range in H1. apply hexDigit_range in H2. lia.
Qed.

Lemma spec_channels_bytes (hex : string) : byteTriple (spec_channels hex).
Proof.
  unfold spec_channels, execHex.
  destruct (list_ascii_of_string _) as [|c1 [|c2 [|c3 [|c4 [|c5 [|c6 [|c7 l]]]]]]];
    try (simpl; lia).
  destruct (parseHexPair c1 c2) as [vr|] eqn:Hr; try (simpl; lia).
  destruct (parseHexPair c3 c4) as [vg|] eqn:Hg; try (simpl; lia).
  destruct (parseHexPair c5 c6) as [vb|] eqn:Hb; try (simpl; lia).
  apply parseHexPair_range in Hr, Hg, Hb. simpl. lia.
Qed.

Lemma hexToRgb_spec (hex : string) : hexToRgb hex = rgbOfZ (spec_channels hex).
Proof.
  unfold hexToRgb, spec_channels.
  destruct (execHex hex) as [[[vr vg] vb]|]; reflexivity.
Qed.

Lemma spec_blend_bytes (bg fg : Z * Z * Z) :
  byteTriple bg -> byteTriple fg -> byteTriple (spec_blend bg fg).
Proof.
  destruct bg as [[r1 g1] b1], fg as [[r2 g2] b2]. simpl.
  intros (Hr1 & Hg1 & Hb1) (Hr2 & Hg2 & Hb2).
  repeat split;
    solve [ apply Z.div_pos; nia
          | apply Z.div_le_upper_bound; nia ].
Qed.

Lemma blendColors_spec (bg fg : Z * Z * Z) :
  byteTriple bg -> byteTriple fg ->
  blendColors (rgbOfZ bg) (rgbOfZ fg) = rgbOfZ (spec_blend bg fg).
Proof.
  destruct bg as [[r1 g1] b1], fg as [[r2 g2] b2]. simpl.
  intros (Hr1 & Hg1 & Hb1) (Hr2 & Hg2 & Hb2).
  unfold blendColors. simpl.
  rewrite !blendChannel_bytes by assumption. reflexivity.
Qed.

Lemma fold_blendColors_spec (inks : list (Z * Z * Z)) (paper : Z * Z * Z) :
  Forall byteTriple inks -> byteTriple paper ->
  fold_left blendColors (map rgbOfZ inks) (rgbOfZ paper)
  = rgbOfZ (fold_left spec_blend inks paper) /\
  byteTriple (fold_left spec_blend inks paper).
Proof.
  intros Hinks. revert paper.
  induction Hinks as [|ink rest Hink Hrest IH]; intros paper Hpaper; simpl.
  - auto.
  - rewrite blendColors_spec by assumption.
    apply IH, spec_blend_bytes; assumption.
Qed.

Lemma applyInks_past_end (inksRgb : list rgb) (i0 n : nat) (cur : rgb) :
  (length inksRgb <= i0)%nat -> applyInks inksRgb i0 n cur = cur.
Proof.
  revert i0 cur. induction n as [|n IH]; intros i0 cur Hi; simpl.
  - reflexivity.
  - rewrite (proj2 (nth_error_None inksRgb i0) Hi). apply IH. lia.
Qed.

Lemma applyInks_from (pre l : list rgb) (n : nat) (cur : rgb) :
  applyInks (pre ++ l) (length pre) n cur
  = fold_left blendColors (firstn n l) cur.
Proof.
  revert pre l cur. induction n as [|n IH]; intros pre l cur; simpl.
  - reflexivity.
  - destruct l as [|ink rest].
    + rewrite app_nil_r, (proj2 (nth_error_None pre (length pre))) by lia.
      apply applyInks_past_end. lia.
    + rewrite nth_error_app2, Nat.sub_diag by lia. simpl.
      specialize (IH (pre ++ [ink]) rest (blendColors cur ink)).
      rewrite <- app_assoc, length_app in IH. simpl in IH.
      rewrite Nat.add_1_r in IH. exact IH.
Qed.

(** The inner loop of the multiply policy blends the first [n] inks, in
    order, skipping none that exists. *)
Lemma applyInks_fold (inksRgb : list rgb) (n : nat) (cur : rgb) :
  applyInks inksRgb 0 n cur = fold_left blendColors (firstn n inksRgb) cur.
Proof. apply (applyInks_from [] inksRgb). Qed.

Lemma Forall_prefix {A : Type} (P : A -> Prop) (n : nat) (l : list A) :
  Forall P l -> Forall P (firstn n l).
Proof.
  intros H. revert n. induction H; intros [|n]; simpl; constructor; auto.
Qed.

Lemma lookup_map {A B : Type} (f : A -> B) (l : list A) (i : Z) :
  JS.lookup (map f l) i = option_map f (JS.lookup l i).
Proof.
  unfold JS.lookup. destruct (i <? 0); [reflexivity|]. apply nth_error_map.
Qed.

Lemma lookup_map_seq {B : Type} (f : nat -> B) (n : nat) (i : Z) :
  0 <= i < Z.of_nat n ->
  JS.lookup (map f (seq 0 n)) i = Some (f (Z.to_nat i)).
Proof.
  intros Hi. unfold JS.lookup.
  destruct (Z.ltb_spec i 0); [lia|].
  rewrite nth_error_map, nth_error_seq.
  destruct (Nat.ltb_spec (Z.to_nat i) n); [reflexivity | lia].
Qed.

Lemma bucketColors_lookup (c : Config) (b : Z) :
  activeTab c = composite -> isColorMode c = true ->
  0 <= b <= layerCount c - 1 ->
  JS.lookup (bucketColors c) b
  = Some (bucketColor c (hexToRgb (paperColor c))
                      (map hexToRgb (inkColors c)) b).
Proof.
  intros Htab Hcol Hb. unfold bucketColors. rewrite Htab, Hcol.
  rewrite lookup_map_seq by lia. now rewrite Z2Nat.id by lia.
Qed.

(** C4.  In the coloured composite view the precomputed colour of every
    bucket [b] in [0, layerCount - 1], with [inksToApply = layerCount - 1 -
    b], is the one the specification gives: under the multiply policy the
    paper colour blended in order with the inks at indices [0 ..
    inksToApply - 1], each channel by [floor (a * c / 255)]; under the
    opaque policy the ink at index [inksToApply - 1] when [inksToApply > 0]
    and the paper colour otherwise.  White paper blended once with ink
    (128,64,0) gives (128,64,0), twice gives (64,16,0). *)
Theorem ink_compositor_bucket_colors :
  (forall (c : Config) (b : Z),
      activeTab c = composite -> isColorMode c = true ->
      0 <= b <= layerCount c - 1 ->
      JS.lookup (bucketColors c) b
      = Some (option_map rgbOfZ
                (spec_bucket_color (blendMode c)
                   (spec_channels (paperColor c))
                   (map spec_channels (inkColors c))
                   (layerCount c) b))) /\
  blendColors (mkRgb 255 255 255) (mkRgb 128 64 0) = mkRgb 128 64 0 /\
  blendColors (blendColors (mkRgb 255 255 255) (mkRgb 128 64 0))
              (mkRgb 128 64 0) = mkRgb 64 16 0.
Proof.
  split; [|split; vm_compute; reflexivity].
  intros c b Htab Hcol Hb.
  rewrite bucketColors_lookup by assumption. f_equal.
  unfold bucketColor, spec_bucket_color.
  assert (Hinks : map hexToRgb (inkColors c)
                  = map rgbOfZ (map spec_channels (inkColors c))).
  { rewrite map_map. apply map_ext, hexToRgb_spec. }
  rewrite Hinks, hexToRgb_spec.
  destruct (blendMode c).
  - rewrite applyInks_fold, firstn_map. simpl. f_equal.
    apply fold_blendColors_spec.
    + apply Forall_prefix. rewrite Forall_map.
      apply Forall_forall. intros hex _. apply spec_channels_bytes.
    + apply spec_channels_bytes.
  - destruct (0 <? layerCount c - 1 - b); [apply lookup_map | reflexivity].
Qed.

Lemma ink_compositor_bucket_colors_witness :
  JS.lookup (bucketColors
               (mkConfig composite 3 [85; 170] 0%float 0 false stack true
                         "#ffffff"%string ["#facc15"%string; "#ef4444"%string] multiply false None)) 0
  = Some (Some (mkRgb 234 54 5)).
Proof.
  refine (eq_trans
    (proj1 ink_compositor_bucket_colors
       (mkConfig composite 3 [85; 170] 0%float 0 false stack true
                 "#ffffff"%string ["#facc15"%string; "#ef4444"%string] multiply false None)
       0 _ _ _) _).
  - reflexivity.
  - reflexivity.
  - simpl. lia.
  - vm_compute. reflexivity.
Defined.

(** ** The composite renderer *)

Lemma processPixel_gray (c : Config) (r g b : Z) :
  activeTab c = composite -> isColorMode c = false ->
  processPixel c (sortedThresholds c) (bucketColors c) r g b
  = Some (grayBytes c r g b).
Proof.
  intros Htab Hcol. unfold processPixel, grayBytes. now rewrite Htab, Hcol.
Qed.

Lemma sortedThresholds_length (c : Config) :
  length (sortedThresholds c) = length (thresholds c).
Proof. apply sortAsc_length. Qed.

(** With an ink per step every bucket has a colour. *)
Lemma bucketColor_defined (c : Config) (bgRgb : rgb) (inksRgb : list rgb) (b : Z) :
  Z.of_nat (length inksRgb) = layerCount c - 1 ->
  0 <= b <= layerCount c - 1 ->
  exists col, bucketColor c bgRgb inksRgb b = Some col.
Proof.
  intros Hlen Hb. unfold bucketColor. destruct (blendMode c); [eauto|].
  destruct (Z.ltb_spec 0 (layerCount c - 1 - b)) as [Hpos|_]; [|eauto].
  unfold JS.lookup.
  destruct (Z.ltb_spec (layerCount c - 1 - b - 1) 0); [lia|].
  destruct (nth_error inksRgb (Z.to_nat (layerCount c - 1 - b - 1))) as [col|] eqn:Hn;
    [eauto|].
  apply nth_error_None in Hn. lia.
Qed.

Lemma processPixel_color (c : Config) (r g b : Z) :
  activeTab c = composite -> isColorMode c = true ->
  Z.of_nat (length (thresholds c)) = layerCount c - 1 ->
  Z.of_nat (length (inkColors c)) = layerCount c - 1 ->
  processPixel c (sortedThresholds c) (bucketColors c) r g b
  = Some (colorBytes c r g b).
Proof.
  intros Htab Hcol Hthr Hink. unfold processPixel, colorBytes.
  rewrite Htab, Hcol.
  assert (Hrange : 0 <= bucketIndex (layerCount c) (sortedThresholds c)
                          (luminance r g b) <= layerCount c - 1).
  { apply bucketIndex_range. now rewrite sortedThresholds_length. }
  rewrite (bucketColors_lookup c _ Htab Hcol Hrange).
  destruct (bucketColor_defined c (hexToRgb (paperColor c))
              (map hexToRgb (inkColors c)) _
              ltac:(now rewrite length_map) Hrange) as [col ->].
  reflexivity.
Qed.

Lemma mapPixel_alpha (f : Z -> Z -> Z -> Z * Z * Z) (p : Z * Z * Z * Z) :
  snd (mapPixel f p) = snd p.
Proof.
  destruct p as [[[r g] b] a]. unfold mapPixel.
  now destruct (f r g b) as [[r' g'] b'].
Qed.




(** ** The crop transform *)

Lemma applyCrop_degenerate
    (drawImage : ImageData -> Z -> Z -> Z -> Z -> ImageData)
    (st : Crop.State) (rect : CropRect) :
  Crop.cropRect st = Some rect -> rw rect = 0 \/ rh rect = 0 ->
  Crop.applyCrop drawImage st = st.
Proof.
  intros Hrect Hzero. unfold Crop.applyCrop. rewrite Hrect.
  destruct (Crop.originalImageRef st); [|reflexivity].
  destruct Hzero as [-> | ->]; [reflexivity|].
  now rewrite orb_true_r.
Qed.

(** C8.  Whatever the canvas draws, cropping with a rectangle of negative
    width or height leaves the same working image, dimensions and flags as
    cropping with the normalized rectangle ([x' = x + w], [w' = |w|] when
    [w < 0], likewise for [h]); the rectangle (50,50,-30,-20) samples the
    region at (20,30) of size 30 by 20, as (20,30,30,20) does.  A rectangle
    with [w = 0] or [h = 0] leaves the state, and so the working buffer,
    unchanged. *)
Theorem crop_negative_extent_normalized :
  (forall (drawImage : ImageData -> Z -> Z -> Z -> Z -> ImageData)
          (st : Crop.State) (rect : CropRect),
      Crop.sourceImageRef
        (Crop.applyCrop drawImage (Crop.setCropRect (Some rect) st))
      = Crop.sourceImageRef
          (Crop.applyCrop drawImage
             (Crop.setCropRect (Some (spec_normalize rect)) st)) /\
      Crop.imageDimensions
        (Crop.applyCrop drawImage (Crop.setCropRect (Some rect) st))
      = Crop.imageDimensions
          (Crop.applyCrop drawImage
             (Crop.setCropRect (Some (spec_normalize rect)) st)) /\
      Crop.image
        (Crop.applyCrop drawImage (Crop.setCropRect (Some rect) st))
      = Crop.image
          (Crop.applyCrop drawImage
             (Crop.setCropRect (Some (spec_normalize rect)) st)) /\
      Crop.isCropping
        (Crop.applyCrop drawImage (Crop.setCropRect (Some rect) st))
      = Crop.isCropping
          (Crop.applyCrop drawImage
             (Crop.setCropRect (Some (spec_normalize rect)) st))) /\
  (forall (drawImage : ImageData -> Z -> Z -> Z -> Z -> ImageData)
          (st : Crop.State) (m : ImageData),
      Crop.originalImageRef st = Some m ->
      Crop.sourceImageRef
        (Crop.applyCrop drawImage
           (Crop.setCropRect (Some (mkRect 50 50 (-30) (-20))) st))
      = Some (drawImage m 20 30 30 20) /\
      Crop.sourceImageRef
        (Crop.applyCrop drawImage
           (Crop.setCropRect (Some (mkRect 20 30 30 20)) st))
      = Some (drawImage m 20 30 30 20)) /\
  (forall (drawImage : ImageData -> Z -> Z -> Z -> Z -> ImageData)
          (st : Crop.State) (rect : CropRect),
      Crop.cropRect st = Some rect -> rw rect = 0 \/ rh rect = 0 ->
      Crop.applyCrop drawImage st = st).
Proof.
  split; [|split].
  - intros drawImage st [x y w h].
    unfold Crop.applyCrop, spec_normalize. simpl.
    destruct (Crop.originalImageRef st) as [m|]; [|auto].
    destruct (Z.eqb_spec w 0) as [-> | Hw]; [simpl; auto|].
    destruct (Z.eqb_spec h 0) as [-> | Hh].
    { simpl. rewrite orb_true_r. auto. }
    destruct (Z.eqb_spec (Z.abs w) 0); [lia|].
    destruct (Z.eqb_spec (Z.abs h) 0); [lia|].
    destruct (Z.ltb_spec (Z.abs w) 0); [lia|].
    destruct (Z.ltb_spec (Z.abs h) 0); [lia|].
    simpl. rewrite !Z.abs_idemp. auto.
  - intros drawImage st m Hm. unfold Crop.applyCrop. simpl.
    rewrite Hm. simpl. auto.
  - apply applyCrop_degenerate.
Qed.

Lemma crop_negative_extent_normalized_witness :
  Crop.applyCrop Crop.copyRegion (cropping (mkRect 1 1 0 (-1)))
  = cropping (mkRect 1 1 0 (-1)).
Proof.
  apply (proj2 (proj2 crop_negative_extent_normalized)
           Crop.copyRegion (cropping (mkRect 1 1 0 (-1))) (mkRect 1 1 0 (-1))).
  - reflexivity.
  - left. reflexivity.
Defined.

(** The copy of a region sampled with a negative extent: the same pixels as
    with the normalized rectangle. *)
Example crop_master_negative_extent :
  Crop.sourceImageRef
    (Crop.applyCrop Crop.copyRegion (cropping (mkRect 3 2 (-2) (-1))))
  = Some (mkImageData 2 1 [13; 14; 15; 255; 16; 17; 18; 255]).
Proof. vm_compute. reflexivity. Qed.

(** ** Malformed configurations *)

(** C9, as stated, fails: each of the four malformed configurations below
    (one layer; a missing threshold; a step out of range; a missing ink) is
    rendered to an output buffer without any error, and none of them is the
    stack-mode edge case. *)
Lemma malformed_configurations_are_rendered :
  (malformed oneLayer /\ ~ stack_exhausted oneLayer /\
   renderImageData oneLayer midGray
   = Painted (uniformImage 4 4 [0; 0; 0; 255])) /\
  (malformed missingThreshold /\ ~ stack_exhausted missingThreshold /\
   renderImageData missingThreshold midGray
   = Painted (uniformImage 4 4 [255; 255; 255; 255])) /\
  (malformed stepOutOfRange /\ ~ stack_exhausted stepOutOfRange /\
   renderImageData stepOutOfRange midGray
   = Painted (uniformImage 4 4 [255; 255; 255; 255])) /\
  (malformed missingInk /\ ~ stack_exhausted missingInk /\
   renderImageData missingInk midGray
   = Painted (uniformImage 4 4 [250; 204; 21; 255])).
Proof.
  repeat split;
    try (intros (Htab & Hmode & _); discriminate);
    try (vm_compute; reflexivity).
  - left. simpl. lia.
  - right. left. simpl. lia.
  - right. right. left. simpl. lia.
  - right. right. right. simpl. lia.
Qed.

(** C9, amended.  The engine does not validate its configuration: in the
    cut-guide view and in the black-and-white composite view every
    configuration, malformed or not, is rendered to a buffer of the same
    dimensions and length; a render can only abort in the coloured composite
    view. *)
Theorem render_does_not_validate (c : Config) (imageData : ImageData) :
  activeTab c = layers \/ isColorMode c = false ->
  (exists out,
      renderImageData c imageData = Painted out /\
      width out = width imageData /\ height out = height imageData /\
      length (data out) = length (data imageData)) /\
  renderImageData c imageData <> Thrown.
Proof.
  intros Hmode.
  assert (H : exists out,
             renderImageData c imageData = Painted out /\
             width out = width imageData /\ height out = height imageData /\
             length (data out) = length (data imageData)).
  { destruct (activeTab c) eqn:Htab.
    - destruct Hmode as [Hmode|Hcol]; [discriminate|].
      destruct (renderImageData_total c (grayBytes c) imageData)
        as (out & Hout & Hw & Hh & Hlen & _).
      { intros r g b. now apply processPixel_gray. }
      exists out. auto.
    - destruct (render_layers c imageData Htab)
        as (out & Hout & Hw & Hh & Hlen & _).
      exists out. auto. }
  split; [exact H|].
  destruct H as (out & -> & _). discriminate.
Qed.

Lemma render_does_not_validate_witness :
  (exists out,
      renderImageData missingThreshold midGray = Painted out /\
      width out = width midGray /\ height out = height midGray /\
      length (data out) = length (data midGray)) /\
  renderImageData missingThreshold midGray <> Thrown.
Proof.
  apply (render_does_not_validate missingThreshold midGray).
  right. reflexivity.
Defined.

(** In the coloured composite view a missing ink can abort the render: the
    opaque policy pushes an undefined colour for the darkest bucket. *)
Example missing_ink_opaque_throws :
  renderImageData
    (mkConfig composite 3 [85; 170] 0%float 0 false stack true
              "#ffffff"%string ["#facc15"%string] normal false None)
    (uniformImage 1 1 [10; 20; 30; 255])
  = Thrown.
Proof. vm_compute. reflexivity. Qed.

(** * Further properties of the engine *)

(** ** Order on doubles *)

Lemma SFltb_trans (a b c : spec_float) :
  SFltb a b = true -> SFltb b c = true -> SFltb a c = true.
Proof.
  unfold SFltb.
  destruct a as [sa|sa| |sa ma ea], b as [sb|sb| |sb mb eb],
           c as [sc|sc| |sc mc ec]; simpl;
    repeat match goal with s : bool |- _ => destruct s end;
    try discriminate; try reflexivity;
    change (Pos.compare_cont Eq) with Pos.compare;
    repeat match goal with
           | |- context [Z.compare ?x ?y] => destruct (Z.compare_spec x y)
           | |- context [Pos.compare ?x ?y] => destruct (Pos.compare_spec x y)
           end; simpl; try discriminate; try reflexivity; intros; subst; lia.
Qed.

Lemma SFleb_cases (a b : spec_float) :
  SFleb a b = true -> SFltb a b = true \/ SFeqb a b = true.
Proof.
  unfold SFleb, SFltb, SFeqb.
  destruct (SFcompare a b) as [[| |]|]; auto; discriminate.
Qed.

Lemma lt_trans (x y z : float) :
  JS.lt x y = true -> JS.lt y z = true -> JS.lt x z = true.
Proof. unfold JS.lt. rewrite !ltb_spec. apply SFltb_trans. Qed.

Lemma leb_lt_trans (x y z : float) :
  PrimFloat.leb x y = true -> JS.lt y z = true -> JS.lt x z = true.
Proof.
  intros Hle Hlt. rewrite leb_spec in Hle.
  destruct (SFleb_cases _ _ Hle) as [H|H].
  - apply (lt_trans x y z); [|exact Hlt]. unfold JS.lt. now rewrite ltb_spec.
  - rewrite <- eqb_spec in H. now rewrite (lt_eqb_compat _ _ _ H).
Qed.

(** A luminance below a byte threshold is below every larger one. *)
Lemma lt_threshold_mono (L : float) (x y : Z) :
  0 <= x <= 255 -> 0 <= y <= 255 -> x <= y ->
  JS.lt L (JS.ofZ x) = true -> JS.lt L (JS.ofZ y) = true.
Proof.
  intros Hx Hy Hle Hlt.
  destruct (Z.eq_dec x y) as [<-|Hne]; [exact Hlt|].
  apply (lt_trans L (JS.ofZ x)); [exact Hlt|].
  rewrite ofZ_bytes_lt by assumption. apply Z.ltb_lt. lia.
Qed.

(** ** The bucketizer is monotone *)

Lemma scanThresholds_hit (gray : float) (ts : list Z) (t0 : Z) (k : nat) (x : Z) :
  nth_error ts k = Some x -> JS.lt gray (JS.ofZ x) = true ->
  exists t, scanThresholds gray ts t0 = Some t /\ t0 <= t <= t0 + Z.of_nat k.
Proof.
  intros Hk Hlt.
  destruct (scanThresholds gray ts t0) as [t|] eqn:Hscan.
  - exists t. split; [reflexivity|].
    destruct (scanThresholds_Some _ _ _ _ Hscan)
      as (n & y & -> & Hn & _ & Hbefore).
    destruct (Nat.le_gt_cases n k) as [Hle|Hgt]; [lia|].
    rewrite (Hbefore k x Hgt Hk) in Hlt. discriminate.
  - rewrite (proj1 (scanThresholds_None _ _ _) Hscan x) in Hlt;
      [discriminate | eapply nth_error_In, Hk].
Qed.

(** X1.  The bucket never decreases when the luminance increases: for at
    most [layerCount - 1] thresholds, sorted or not, [L1 <= L2] gives
    [bucket L1 <= bucket L2]. *)
Theorem bucketIndex_monotone (layers : Z) (T : list Z) (L1 L2 : float) :
  Z.of_nat (length T) <= layers - 1 ->
  PrimFloat.leb L1 L2 = true ->
  bucketIndex layers T L1 <= bucketIndex layers T L2.
Proof.
  intros Hlen Hle. unfold bucketIndex.
  destruct (scanThresholds L2 T 0) as [t2|] eqn:H2.
  - destruct (scanThresholds_Some _ _ _ _ H2) as (k & x & -> & Hk & Hlt & _).
    destruct (scanThresholds_hit L1 T 0 k x Hk (leb_lt_trans _ _ _ Hle Hlt))
      as (t1 & -> & Ht1). lia.
  - destruct (scanThresholds L1 T 0) as [t1|] eqn:H1; [|lia].
    destruct (scanThresholds_Some _ _ _ _ H1) as (k & x & -> & Hk & _).
    assert (k < length T)%nat by (apply nth_error_Some; congruence). lia.
Qed.

Lemma bucketIndex_monotone_witness :
  bucketIndex 3 [85; 170] (luminance 10 20 30)
  <= bucketIndex 3 [85; 170] (luminance 200 200 200).
Proof.
  apply bucketIndex_monotone.
  - simpl. lia.
  - vm_compute. reflexivity.
Defined.

(** ** What a render never touches *)

Lemma Forall2_weaken {A B : Type} (R S : A -> B -> Prop) (l : list A) (l' : list B) :
  (forall x y, R x y -> S x y) -> Forall2 R l l' -> Forall2 S l l'.
Proof. intros H HF. induction HF; constructor; auto. Qed.

(** X2.  Whatever the configuration and the view, a render that reaches
    [putImageData] leaves the width, the height and the length of the data
    as they were and never changes an alpha byte. *)
Theorem painted_keeps_shape_and_alpha
    (c : Config) (imageData out : ImageData) :
  renderImageData c imageData = Painted out ->
  width out = width imageData /\ height out = height imageData /\
  length (data out) = length (data imageData) /\
  Forall2 (fun p q => snd q = snd p)
          (pixelsOf (data imageData)) (pixelsOf (data out)).
Proof.
  unfold renderImageData.
  destruct (processLoop c (sortedThresholds c) (bucketColors c) (data imageData))
    as [d|] eqn:Hd; [|discriminate].
  intros H; injection H as <-. simpl.
  destruct (processLoop_Some _ _ _ _ _ Hd) as [Hlen Hall].
  repeat split; auto.
  eapply Forall2_weaken; [|exact Hall].
  intros [[[r g] b] a] [[[r' g'] b'] a'] [_ Ha]. exact Ha.
Qed.

Lemma painted_keeps_shape_and_alpha_witness :
  width (uniformImage 4 4 [250; 204; 21; 255]) = width midGray /\
  height (uniformImage 4 4 [250; 204; 21; 255]) = height midGray /\
  length (data (uniformImage 4 4 [250; 204; 21; 255])) = length (data midGray) /\
  Forall2 (fun p q => snd q = snd p)
          (pixelsOf (data midGray))
          (pixelsOf (data (uniformImage 4 4 [250; 204; 21; 255]))).
Proof.
  apply (painted_keeps_shape_and_alpha missingInk).
  vm_compute. reflexivity.
Defined.

(** ** Pixels are processed independently *)

Lemma processLoop_app (c : Config) (sorted : list Z)
    (colors : list (option rgb)) (d1 d2 : list Z) :
  (length d1 mod 4 = 0)%nat ->
  processLoop c sorted colors (d1 ++ d2) =
  match processLoop c sorted colors d1, processLoop c sorted colors d2 with
  | Some o1, Some o2 => Some (o1 ++ o2)
  | _, _ => None
  end.
Proof.
  induction d1 as [l Hl | r g b a rest IH] using quad_ind; intros Hmod.
  - destruct l as [|x [|y [|z [|w l]]]]; simpl in *; try lia; try discriminate.
    now destruct (processLoop c sorted colors d2).
  - change ((r :: g :: b :: a :: rest) ++ d2)
      with (r :: g :: b :: a :: (rest ++ d2)).
    rewrite !processLoop_quad.
    destruct (processPixel c sorted colors r g b) as [[[r' g'] b']|];
      [|reflexivity].
    rewrite IH.
    + destruct (processLoop c sorted colors rest) as [o1|]; [|reflexivity].
      now destruct (processLoop c sorted colors d2).
    + change (length (r :: g :: b :: a :: rest)) with (4 + length rest)%nat in Hmod.
      pose proof (Nat.Div0.mod_add (length rest) 1 4) as Hadd.
      replace (length rest + 1 * 4)%nat with (4 + length rest)%nat in Hadd by lia.
      congruence.
Qed.

(** X3.  A buffer can be rendered in pieces: when the first piece holds
    whole pixels, the render of two pieces put together is the two renders
    put together, and it throws exactly when one of them does. *)
Theorem render_of_concatenation
    (c : Config) (w h : Z) (d1 d2 : list Z) :
  (length d1 mod 4 = 0)%nat ->
  renderImageData c (mkImageData w h (d1 ++ d2)) =
  match renderImageData c (mkImageData w h d1),
        renderImageData c (mkImageData w h d2) with
  | Painted o1, Painted o2 => Painted (mkImageData w h (data o1 ++ data o2))
  | _, _ => Thrown
  end.
Proof.
  intros Hmod. unfold renderImageData. simpl.
  rewrite processLoop_app by exact Hmod.
  destruct (processLoop c (sortedThresholds c) (bucketColors c) d1);
    [|reflexivity].
  destruct (processLoop c (sortedThresholds c) (bucketColors c) d2);
    reflexivity.
Qed.

Lemma render_of_concatenation_witness :
  renderImageData (scenario layers zone 0 false)
    (mkImageData 2 1 ([128; 128; 128; 255] ++ [10; 20; 30; 7])) =
  match renderImageData (scenario layers zone 0 false)
          (mkImageData 2 1 [128; 128; 128; 255]),
        renderImageData (scenario layers zone 0 false)
          (mkImageData 2 1 [10; 20; 30; 7]) with
  | Painted o1, Painted o2 => Painted (mkImageData 2 1 (data o1 ++ data o2))
  | _, _ => Thrown
  end.
Proof.
  apply (render_of_concatenation (scenario layers zone 0 false) 2 1).
  reflexivity.
Defined.

(** ** The order of the thresholds does not matter *)

Lemma sorted_perm_unique (l1 l2 : list Z) :
  StronglySorted Z.le l1 -> StronglySorted Z.le l2 ->
  Permutation l1 l2 -> l1 = l2.
Proof.
  intros H1. revert l2.
  induction H1 as [|x r1 Hs1 IH Hall1]; intros l2 H2 Hperm.
  - apply Permutation_nil in Hperm. now subst.
  - destruct H2 as [|y r2 Hs2 Hall2].
    + apply Permutation_sym, Permutation_nil in Hperm. discriminate.
    + assert (Hxy : x = y).
      { rewrite Forall_forall in Hall1, Hall2.
        assert (Hy : In y (x :: r1)).
        { eapply Permutation_in; [apply Permutation_sym, Hperm | now left]. }
        assert (Hx : In x (y :: r2)).
        { eapply Permutation_in; [apply Hperm | now left]. }
        destruct Hy as [Hy|Hy]; [congruence|].
        destruct Hx as [Hx|Hx]; [congruence|].
        specialize (Hall1 y Hy). specialize (Hall2 x Hx). lia. }
      subst y. f_equal. apply IH; [exact Hs2|].
      eapply Permutation_cons_inv, Hperm.
Qed.

Lemma sortAsc_perm_eq (l l' : list Z) :
  Permutation l l' -> sortAsc l = sortAsc l'.
Proof.
  intros H. apply sorted_perm_unique; try apply sortAsc_sorted.
  eapply perm_trans; [apply Permutation_sym, sortAsc_perm|].
  eapply perm_trans; [exact H | apply sortAsc_perm].
Qed.

(** X4.  The engine works on a sorted private copy of the thresholds, so
    the order in which the sliders hold them is irrelevant: two
    configurations that differ by a reordering of the thresholds render every
    image alike. *)
Theorem thresholds_order_irrelevant
    (c : Config) (ts ts' : list Z) (imageData : ImageData) :
  Permutation ts ts' ->
  renderImageData (setThresholds ts c) imageData
  = renderImageData (setThresholds ts' c) imageData.
Proof.
  intros Hperm. unfold renderImageData.
  change (sortedThresholds (setThresholds ts c)) with (sortAsc ts).
  change (sortedThresholds (setThresholds ts' c)) with (sortAsc ts').
  rewrite (sortAsc_perm_eq ts ts' Hperm).
  rewrite (processLoop_ext (setThresholds ts c) (setThresholds ts' c)
             (sortAsc ts') (sortAsc ts')
             (bucketColors (setThresholds ts c))
             (bucketColors (setThresholds ts' c))); reflexivity.
Qed.

Lemma thresholds_order_irrelevant_witness :
  renderImageData (setThresholds [170; 85] (scenario composite stack 0 false)) midGray
  = renderImageData (setThresholds [85; 170] (scenario composite stack 0 false)) midGray.
Proof.
  apply thresholds_order_irrelevant.
  apply perm_swap.
Defined.

(** ** How the stencils of the steps relate *)

Lemma blackAt_layers (c : Config) (imageData : ImageData) (i : nat) :
  activeTab c = layers ->
  (blackAt c imageData i <->
   exists p, nth_error (pixelsOf (data imageData)) i = Some p /\
             mapPixel (cutBytes c) p = black (snd p)).
Proof.
  intros Htab.
  destruct (render_layers c imageData Htab) as (out & Hout & _ & _ & _ & Hpix).
  unfold blackAt. split.
  - intros (out' & a & Hout' & Hnth).
    rewrite Hout in Hout'. injection Hout' as <-.
    rewrite Hpix, nth_error_map in Hnth.
    destruct (nth_error (pixelsOf (data imageData)) i) as [p|]; [|discriminate].
    exists p. split; [reflexivity|]. simpl in Hnth. injection Hnth as Hp.
    rewrite Hp. pose proof (mapPixel_alpha (cutBytes c) p) as Ha.
    rewrite Hp in Ha. simpl in Ha. now rewrite Ha.
  - intros (p & Hp & Hblack).
    exists out, (snd p). split; [exact Hout|].
    now rewrite Hpix, nth_error_map, Hp, <- Hblack.
Qed.

Lemma stencil_black_iff (keep : bool) : stencil false keep = 0 <-> keep = true.
Proof. destruct keep; simpl; split; intros H; auto; discriminate. Qed.

Lemma zone_black_iff (c : Config) (r g b a : Z) :
  cutMode c = zone -> inverted c = false ->
  (mapPixel (cutBytes c) (r, g, b, a) = black a <->
   bucketIndex (layerCount c) (sortedThresholds c) (luminance r g b)
   = layerCount c - 1 - (selectedLayerIndex c + 1)).
Proof.
  intros Hmode Hinv. unfold mapPixel, cutBytes, zoneBytes, black.
  rewrite Hmode, Hinv. rewrite <- Z.eqb_eq, <- stencil_black_iff.
  split; intros H.
  - now injection H.
  - now rewrite H.
Qed.

Lemma stack_black_iff (c : Config) (r g b a : Z) :
  cutMode c = stack -> inverted c = false ->
  (mapPixel (cutBytes c) (r, g, b, a) = black a <->
   0 <= Z.of_nat (length (sortedThresholds c)) - 1 - selectedLayerIndex c /\
   JS.ltUndef (luminance r g b)
     (JS.lookup (sortedThresholds c)
        (Z.of_nat (length (sortedThresholds c)) - 1 - selectedLayerIndex c))
   = true).
Proof.
  intros Hmode Hinv. unfold mapPixel, cutBytes, stackBytes, black.
  rewrite Hmode, Hinv.
  destruct (Z.ltb_spec
              (Z.of_nat (length (sortedThresholds c)) - 1 - selectedLayerIndex c) 0)
    as [Hneg|Hpos].
  - split; [discriminate | lia].
  - rewrite <- stencil_black_iff. split.
    + intros H. split; [exact Hpos | now injection H].
    + intros [_ H]. now rewrite H.
Qed.

Lemma lookup_Some_nth {A : Type} (l : list A) (i : Z) (x : A) :
  JS.lookup l i = Some x <-> 0 <= i /\ nth_error l (Z.to_nat i) = Some x.
Proof.
  unfold JS.lookup. destruct (Z.ltb_spec i 0); split.
  - discriminate.
  - lia.
  - auto.
  - now intros [_ H'].
Qed.

Lemma ltUndef_true (L : float) (o : option Z) :
  JS.ltUndef L o = true <-> exists x, o = Some x /\ JS.lt L (JS.ofZ x) = true.
Proof.
  destruct o as [x|]; simpl; split.
  - eauto.
  - now intros (y & [= <-] & H).
  - discriminate.
  - now intros (y & H & _).
Qed.

(** X5.  The zone stencils do not overlap: with [inverted] off, a pixel
    that is black (kept) in the stencil of one step is black in the stencil
    of no other step. *)
Theorem zone_stencils_disjoint
    (c : Config) (imageData : ImageData) (i : nat) (s s' : Z) :
  cutMode c = zone -> inverted c = false ->
  blackAt (stepOverrides s c) imageData i ->
  blackAt (stepOverrides s' c) imageData i ->
  s = s'.
Proof.
  intros Hmode Hinv H1 H2.
  apply blackAt_layers in H1; [|reflexivity].
  apply blackAt_layers in H2; [|reflexivity].
  destruct H1 as ([[[r g] b] a] & Hp & Hb1).
  destruct H2 as (p' & Hp' & Hb2).
  rewrite Hp in Hp'. injection Hp' as <-.
  apply zone_black_iff in Hb1; [|exact Hmode | exact Hinv].
  apply zone_black_iff in Hb2; [|exact Hmode | exact Hinv].
  simpl in Hb1, Hb2.
  change (sortedThresholds (stepOverrides s c)) with (sortedThresholds c) in Hb1.
  change (sortedThresholds (stepOverrides s' c)) with (sortedThresholds c) in Hb2.
  lia.
Qed.

Lemma zone_stencils_disjoint_witness : 0 = 0.
Proof.
  apply (zone_stencils_disjoint (scenario layers zone 0 false) midGray 0 0 0).
  - reflexivity.
  - reflexivity.
  - exists (uniformImage 4 4 [0; 0; 0; 255]), 255.
    split; vm_compute; reflexivity.
  - exists (uniformImage 4 4 [0; 0; 0; 255]), 255.
    split; vm_compute; reflexivity.
Defined.

(** X6.  The stack stencils are nested: with [inverted] off and byte
    thresholds, a pixel that is black (kept) at a step is black at every
    earlier step, so each step can only carve more. *)
Theorem stack_stencils_nested
    (c : Config) (imageData : ImageData) (i : nat) (s s' : Z) :
  cutMode c = stack -> inverted c = false ->
  Forall (fun x => 0 <= x <= 255) (thresholds c) ->
  0 <= s <= s' ->
  blackAt (stepOverrides s' c) imageData i ->
  blackAt (stepOverrides s c) imageData i.
Proof.
  intros Hmode Hinv Hbytes Hs H.
  apply blackAt_layers in H; [|reflexivity].
  apply blackAt_layers; [reflexivity|].
  destruct H as ([[[r g] b] a] & Hp & Hb).
  exists (r, g, b, a). split; [exact Hp|].
  apply stack_black_iff in Hb; [|exact Hmode | exact Hinv].
  apply stack_black_iff; [exact Hmode | exact Hinv|].
  simpl in *.
  change (sortedThresholds (stepOverrides s' c)) with (sortedThresholds c) in Hb.
  change (sortedThresholds (stepOverrides s c)) with (sortedThresholds c).
  destruct Hb as [Hidx Hlt]. split; [lia|].
  apply ltUndef_true in Hlt. destruct Hlt as (x & Hx & Hlt).
  apply lookup_Some_nth in Hx. destruct Hx as [_ Hx].
  set (n := length (sortedThresholds c)) in *.
  destruct (nth_error (sortedThresholds c) (Z.to_nat (Z.of_nat n - 1 - s)))
    as [y|] eqn:Hy.
  - apply ltUndef_true. exists y. split.
    + apply lookup_Some_nth. split; [lia | exact Hy].
    + assert (Hall : Forall (fun x => 0 <= x <= 255) (sortedThresholds c))
        by (apply sortAsc_Forall, Hbytes).
      rewrite Forall_forall in Hall.
      apply (lt_threshold_mono _ x y); try (apply Hall; eapply nth_error_In; eauto).
      * apply (StronglySorted_nth_le (sortedThresholds c)
                 (Z.to_nat (Z.of_nat n - 1 - s'))
                 (Z.to_nat (Z.of_nat n - 1 - s)) x y);
          [apply sortAsc_sorted | lia | exact Hx | exact Hy].
      * exact Hlt.
  - apply nth_error_None in Hy. subst n. lia.
Qed.

Lemma stack_stencils_nested_witness :
  blackAt (stepOverrides 0 (scenario layers stack 0 false))
          (uniformImage 1 1 [10; 20; 30; 255]) 0.
Proof.
  apply (stack_stencils_nested (scenario layers stack 0 false)
           (uniformImage 1 1 [10; 20; 30; 255]) 0 0 1).
  - reflexivity.
  - reflexivity.
  - repeat constructor; simpl; lia.
  - lia.
  - exists (uniformImage 1 1 [0; 0; 0; 255]), 255.
    split; vm_compute; reflexivity.
Defined.

(** X7.  The two strategies agree on where the tones lie: for a
    configuration with [layerCount - 1] byte thresholds, [inverted] off and
    a step in [0, layerCount - 2], a pixel is black in the zone stencil of
    the step exactly when it is black in the stack stencil of that step and
    not in the stack stencil of the next one. *)
Theorem zone_is_stack_difference
    (c : Config) (imageData : ImageData) (i : nat) (s : Z) :
  inverted c = false ->
  Z.of_nat (length (thresholds c)) = layerCount c - 1 ->
  Forall (fun x => 0 <= x <= 255) (thresholds c) ->
  0 <= s <= layerCount c - 2 ->
  (blackAt (stepOverrides s (setCutMode zone c)) imageData i <->
   blackAt (stepOverrides s (setCutMode stack c)) imageData i /\
   ~ blackAt (stepOverrides (s + 1) (setCutMode stack c)) imageData i).
Proof.
  intros Hinv Hlen Hbytes Hs.
  rewrite !blackAt_layers by reflexivity.
  assert (Hn : Z.of_nat (length (sortedThresholds c)) = layerCount c - 1)
    by (now rewrite sortedThresholds_length).
  assert (Hsorted := sortAsc_sorted (thresholds c)).
  fold (sortedThresholds c) in Hsorted.
  assert (Hall : Forall (fun x => 0 <= x <= 255) (sortedThresholds c))
    by (apply sortAsc_Forall, Hbytes).
  rewrite Forall_forall in Hall.
  (* the three stencils, read on one pixel *)
  assert (Hzone : forall r g b a,
    mapPixel (cutBytes (stepOverrides s (setCutMode zone c))) (r, g, b, a)
    = black a <->
    bucketIndex (layerCount c) (sortedThresholds c) (luminance r g b)
    = layerCount c - 2 - s).
  { intros r g b a. rewrite zone_black_iff by (reflexivity || exact Hinv).
    simpl.
    change (sortedThresholds (stepOverrides s (setCutMode zone c)))
      with (sortedThresholds c).
    split; lia. }
  assert (Hstack : forall s0 r g b a,
    mapPixel (cutBytes (stepOverrides s0 (setCutMode stack c))) (r, g, b, a)
    = black a <->
    0 <= layerCount c - 2 - s0 /\
    exists x, nth_error (sortedThresholds c) (Z.to_nat (layerCount c - 2 - s0))
              = Some x /\
              JS.lt (luminance r g b) (JS.ofZ x) = true).
  { intros s0 r g b a. rewrite stack_black_iff by (reflexivity || exact Hinv).
    simpl.
    change (sortedThresholds (stepOverrides s0 (setCutMode stack c)))
      with (sortedThresholds c).
    rewrite Hn, ltUndef_true.
    replace (layerCount c - 1 - 1 - s0) with (layerCount c - 2 - s0) by lia.
    split.
    - intros [Hidx (x & Hx & Hlt)]. split; [exact Hidx|].
      exists x. split; [|exact Hlt]. now apply lookup_Some_nth in Hx.
    - intros [Hidx (x & Hx & Hlt)]. split; [exact Hidx|].
      exists x. split; [|exact Hlt]. apply lookup_Some_nth. auto. }
  set (t := layerCount c - 2 - s) in *.
  split.
  - intros ([[[r g] b] a] & Hp & Hb). simpl in Hb.
    apply Hzone in Hb. unfold bucketIndex in Hb.
    destruct (scanThresholds (luminance r g b) (sortedThresholds c) 0)
      as [t'|] eqn:Hscan; [|lia].
    destruct (scanThresholds_Some _ _ _ _ Hscan)
      as (k & x & Hk & Hx & Hlt & Hbefore).
    assert (Hkt : Z.to_nat t = k) by lia.
    split.
    + exists (r, g, b, a). split; [exact Hp|]. simpl.
      apply Hstack. fold t. split; [lia|].
      exists x. now rewrite Hkt.
    + intros (p' & Hp' & Hb'). rewrite Hp in Hp'. injection Hp' as <-.
      simpl in Hb'. apply Hstack in Hb'.
      destruct Hb' as [Hidx (y & Hy & Hlty)].
      rewrite (Hbefore (Z.to_nat (layerCount c - 2 - (s + 1))) y) in Hlty;
        [discriminate | lia | exact Hy].
  - intros [([[[r g] b] a] & Hp & Hb) Hnot].
    exists (r, g, b, a). split; [exact Hp|]. simpl in *.
    apply Hzone. apply Hstack in Hb. fold t in Hb.
    destruct Hb as [Hidx (x & Hx & Hlt)].
    unfold bucketIndex.
    rewrite (scanThresholds_first _ _ 0 (Z.to_nat t) x Hx Hlt); [lia|].
    intros j y Hj Hy.
    destruct (JS.lt (luminance r g b) (JS.ofZ y)) eqn:Hlty; [|reflexivity].
    exfalso. apply Hnot.
    exists (r, g, b, a). split; [exact Hp|]. simpl.
    apply Hstack. split; [lia|].
    destruct (nth_error (sortedThresholds c)
                (Z.to_nat (layerCount c - 2 - (s + 1)))) as [z|] eqn:Hz.
    + exists z. split; [reflexivity|].
      apply (lt_threshold_mono _ y z);
        try (apply Hall; eapply nth_error_In; eauto); [|exact Hlty].
      apply (StronglySorted_nth_le (sortedThresholds c) j
               (Z.to_nat (layerCount c - 2 - (s + 1))) y z);
        [exact Hsorted | lia | exact Hy | exact Hz].
    + apply nth_error_None in Hz. lia.
Qed.

Lemma zone_is_stack_difference_witness :
  blackAt (stepOverrides 0 (setCutMode zone (scenario layers stack 0 false)))
          midGray 0 <->
  blackAt (stepOverrides 0 (setCutMode stack (scenario layers stack 0 false)))
          midGray 0 /\
  ~ blackAt (stepOverrides (0 + 1)
               (setCutMode stack (scenario layers stack 0 false))) midGray 0.
Proof.
  apply (zone_is_stack_difference (scenario layers stack 0 false) midGray 0 0).
  - reflexivity.
  - reflexivity.
  - repeat constructor; simpl; lia.
  - simpl. lia.
Defined.

(** ** The colours of the composite view *)

Lemma bucketIndex_range_le (layers : Z) (sorted : list Z) (gray : float) :
  1 <= layers -> Z.of_nat (length sorted) <= layers - 1 ->
  0 <= bucketIndex layers sorted gray <= layers - 1.
Proof.
  intros Hpos Hlen. unfold bucketIndex.
  destruct (scanThresholds gray sorted 0) as [t|] eqn:Hscan.
  - destruct (scanThresholds_Some _ _ _ _ Hscan) as (k & x & -> & Hn & _).
    assert (k < length sorted)%nat by (apply nth_error_Some; congruence).
    lia.
  - lia.
Qed.

Lemma hexToRgb_inks (inks : list string) :
  map hexToRgb inks = map rgbOfZ (map spec_channels inks).
Proof. rewrite map_map. apply map_ext, hexToRgb_spec. Qed.

Lemma spec_channels_all_bytes (inks : list string) :
  Forall byteTriple (map spec_channels inks).
Proof.
  rewrite Forall_map. apply Forall_forall. intros hex _.
  apply spec_channels_bytes.
Qed.

(** The colour table, entry by entry, on integer channels. *)
Lemma bucketColors_spec (c : Config) (b : Z) :
  activeTab c = composite -> isColorMode c = true ->
  0 <= b <= layerCount c - 1 ->
  JS.lookup (bucketColors c) b
  = Some (option_map rgbOfZ
            (spec_bucket_color (blendMode c)
               (spec_channels (paperColor c))
               (map spec_channels (inkColors c))
               (layerCount c) b)).
Proof.
  intros Htab Hcol Hb.
  rewrite bucketColors_lookup by assumption. f_equal.
  unfold bucketColor, spec_bucket_color.
  rewrite hexToRgb_inks, hexToRgb_spec.
  destruct (blendMode c).
  - rewrite applyInks_fold, firstn_map. simpl. f_equal.
    apply fold_blendColors_spec.
    + apply Forall_prefix, spec_channels_all_bytes.
    + apply spec_channels_bytes.
  - destruct (0 <? layerCount c - 1 - b); [apply lookup_map | reflexivity].
Qed.

Lemma spec_bucket_color_bytes (policy : BlendMode) (paper : Z * Z * Z)
    (inks : list (Z * Z * Z)) (layers b : Z) (t : Z * Z * Z) :
  byteTriple paper -> Forall byteTriple inks ->
  spec_bucket_color policy paper inks layers b = Some t -> byteTriple t.
Proof.
  intros Hpaper Hinks. unfold spec_bucket_color. destruct policy.
  - intros [= <-]. apply fold_blendColors_spec; [|exact Hpaper].
    apply Forall_prefix, Hinks.
  - destruct (0 <? layers - 1 - b).
    + intros H. apply lookup_Some_nth in H. destruct H as [_ H].
      rewrite Forall_forall in Hinks. eapply Hinks, nth_error_In, H.
    + now intros [= <-].
Qed.

Lemma colorBytes_spec (c : Config) (r g b : Z) (t : Z * Z * Z) :
  activeTab c = composite -> isColorMode c = true ->
  0 <= bucketIndex (layerCount c) (sortedThresholds c) (luminance r g b)
    <= layerCount c - 1 ->
  spec_bucket_color (blendMode c) (spec_channels (paperColor c))
    (map spec_channels (inkColors c)) (layerCount c)
    (bucketIndex (layerCount c) (sortedThresholds c) (luminance r g b))
  = Some t ->
  processPixel c (sortedThresholds c) (bucketColors c) r g b
  = Some (colorBytes c r g b) /\
  colorBytes c r g b = t.
Proof.
  intros Htab Hcol Hrange Ht. unfold processPixel, colorBytes.
  rewrite Htab, Hcol, (bucketColors_spec c _ Htab Hcol Hrange), Ht.
  pose proof (spec_bucket_color_bytes _ _ _ _ _ _
                (spec_channels_bytes (paperColor c))
                (spec_channels_all_bytes (inkColors c)) Ht) as Hbytes.
  destruct t as [[tr tg] tb]. simpl in *.
  destruct Hbytes as (Hr & Hg & Hb).
  now rewrite !toUint8Clamp_ofZ by assumption.
Qed.

(** X8.  In the coloured composite view, with at most [layerCount - 1]
    thresholds and, under the opaque policy, at least [layerCount - 1] inks,
    the render succeeds and every pixel receives exactly the integer colour
    of its bucket, alpha unchanged.  Under the multiply policy nothing is
    asked of the ink list: inks that are missing are skipped. *)
Theorem colour_composite_pixels (c : Config) (imageData : ImageData) :
  activeTab c = composite -> isColorMode c = true ->
  1 <= layerCount c ->
  Z.of_nat (length (thresholds c)) <= layerCount c - 1 ->
  (blendMode c = normal ->
   layerCount c - 1 <= Z.of_nat (length (inkColors c))) ->
  exists out,
    renderImageData c imageData = Painted out /\
    Forall2 (fun p q =>
               let '(r, g, b, a) := p in
               exists t,
                 spec_bucket_color (blendMode c)
                   (spec_channels (paperColor c))
                   (map spec_channels (inkColors c)) (layerCount c)
                   (bucketIndex (layerCount c) (sortedThresholds c)
                      (luminance r g b)) = Some t /\
                 byteTriple t /\ q = (t, a))
            (pixelsOf (data imageData)) (pixelsOf (data out)).
Proof.
  intros Htab Hcol Hpos Hthr Hink.
  assert (Hrange : forall r g b,
    0 <= bucketIndex (layerCount c) (sortedThresholds c) (luminance r g b)
      <= layerCount c - 1).
  { intros r g b. apply bucketIndex_range_le; [exact Hpos|].
    now rewrite sortedThresholds_length. }
  assert (Hdef : forall r g b, exists t,
    spec_bucket_color (blendMode c) (spec_channels (paperColor c))
      (map spec_channels (inkColors c)) (layerCount c)
      (bucketIndex (layerCount c) (sortedThresholds c) (luminance r g b))
    = Some t /\ byteTriple t).
  { intros r g b. specialize (Hrange r g b).
    set (k := bucketIndex _ _ _) in *.
    assert (Hex : exists t,
      spec_bucket_color (blendMode c) (spec_channels (paperColor c))
        (map spec_channels (inkColors c)) (layerCount c) k = Some t).
    { unfold spec_bucket_color. destruct (blendMode c); [eauto|].
      destruct (Z.ltb_spec 0 (layerCount c - 1 - k)); [|eauto].
      specialize (Hink eq_refl).
      destruct (nth_error (map spec_channels (inkColors c))
                  (Z.to_nat (layerCount c - 1 - k - 1))) as [t|] eqn:Hn.
      - exists t. apply lookup_Some_nth. split; [lia | exact Hn].
      - apply nth_error_None in Hn. rewrite length_map in Hn. lia. }
    destruct Hex as [t Ht]. exists t. split; [exact Ht|].
    eapply spec_bucket_color_bytes; [| |exact Ht].
    - apply spec_channels_bytes.
    - apply spec_channels_all_bytes. }
  destruct (renderImageData_total c (colorBytes c) imageData)
    as (out & Hout & _ & _ & _ & Hpix).
  { intros r g b. destruct (Hdef r g b) as (t & Ht & _).
    apply (colorBytes_spec c r g b t Htab Hcol (Hrange r g b) Ht). }
  exists out. split; [exact Hout|].
  rewrite Hpix. apply Forall2_map_self.
  intros [[[r g] b] a]. destruct (Hdef r g b) as (t & Ht & Hbytes).
  exists t. repeat split; auto.
  unfold mapPixel.
  rewrite (proj2 (colorBytes_spec c r g b t Htab Hcol (Hrange r g b) Ht)).
  now destruct t as [[tr tg] tb].
Qed.

Lemma colour_composite_pixels_witness :
  exists out,
    renderImageData missingInk midGray = Painted out /\
    Forall2 (fun p q =>
               let '(r, g, b, a) := p in
               exists t,
                 spec_bucket_color (blendMode missingInk)
                   (spec_channels (paperColor missingInk))
                   (map spec_channels (inkColors missingInk))
                   (layerCount missingInk)
                   (bucketIndex (layerCount missingInk)
                      (sortedThresholds missingInk)
                      (luminance r g b)) = Some t /\
                 byteTriple t /\ q = (t, a))
            (pixelsOf (data midGray)) (pixelsOf (data out)).
Proof.
  apply (colour_composite_pixels missingInk midGray).
  - reflexivity.
  - reflexivity.
  - simpl. lia.
  - simpl. lia.
  - discriminate.
Defined.

Lemma processLoop_None_iff (c : Config) (sorted : list Z)
    (colors : list (option rgb)) (d : list Z) :
  processLoop c sorted colors d = None <->
  Exists (fun p => let '(r, g, b, a) := p in
                   processPixel c sorted colors r g b = None)
         (pixelsOf d).
Proof.
  induction d as [l Hl | r g b a rest IH] using quad_ind.
  - destruct l as [|x [|y [|z [|w l]]]]; simpl in *; try lia;
      (split; [discriminate | intros H; inversion H]).
  - rewrite processLoop_quad.
    change (pixelsOf (r :: g :: b :: a :: rest))
      with ((r, g, b, a) :: pixelsOf rest).
    rewrite Exists_cons, <- IH.
    destruct (processPixel c sorted colors r g b) as [[[r' g'] b']|].
    + destruct (processLoop c sorted colors rest); split; auto;
        try discriminate.
      intros [H|H]; discriminate.
    + split; auto.
Qed.

Lemma Exists_equiv {A : Type} (P Q : A -> Prop) (l : list A) :
  (forall x, P x <-> Q x) -> (Exists P l <-> Exists Q l).
Proof.
  intros H. rewrite !Exists_exists.
  split; intros (x & Hin & Hx); exists x; split; auto; now apply H.
Qed.

(** X9.  Under the opaque policy a missing ink is fatal exactly where it
    is needed: in the coloured composite view, with at most
    [layerCount - 1] thresholds, the render throws if and only if the image
    has a pixel whose bucket needs an ink beyond the end of the list
    ([inkColors.length < layerCount - 1 - bucket]). *)
Theorem opaque_render_throws_iff (c : Config) (imageData : ImageData) :
  activeTab c = composite -> isColorMode c = true -> blendMode c = normal ->
  1 <= layerCount c ->
  Z.of_nat (length (thresholds c)) <= layerCount c - 1 ->
  (renderImageData c imageData = Thrown <->
   Exists (fun p =>
             let '(r, g, b, a) := p in
             Z.of_nat (length (inkColors c))
             < layerCount c - 1
               - bucketIndex (layerCount c) (sortedThresholds c)
                   (luminance r g b))
          (pixelsOf (data imageData))).
Proof.
  intros Htab Hcol Hmode Hpos Hthr.
  assert (Hthrown :
    renderImageData c imageData = Thrown <->
    processLoop c (sortedThresholds c) (bucketColors c) (data imageData) = None).
  { unfold renderImageData.
    destruct (processLoop c (sortedThresholds c) (bucketColors c)
                (data imageData)); split; auto; discriminate. }
  rewrite Hthrown, processLoop_None_iff.
  apply Exists_equiv. intros [[[r g] b] a].
  assert (Hrange :
    0 <= bucketIndex (layerCount c) (sortedThresholds c) (luminance r g b)
      <= layerCount c - 1).
  { apply bucketIndex_range_le; [exact Hpos|].
    now rewrite sortedThresholds_length. }
  unfold processPixel. rewrite Htab, Hcol.
  rewrite (bucketColors_lookup c _ Htab Hcol Hrange).
  set (k := bucketIndex _ _ _) in *.
  unfold bucketColor. rewrite Hmode.
  destruct (Z.ltb_spec 0 (layerCount c - 1 - k)) as [Hk|Hk].
  - unfold JS.lookup.
    destruct (Z.ltb_spec (layerCount c - 1 - k - 1) 0); [lia|].
    destruct (nth_error (map hexToRgb (inkColors c))
                (Z.to_nat (layerCount c - 1 - k - 1))) as [col|] eqn:Hn.
    + split; [discriminate|]. intros Hlt. exfalso.
      assert (Hsome : nth_error (map hexToRgb (inkColors c))
                        (Z.to_nat (layerCount c - 1 - k - 1)) <> None)
        by congruence.
      apply nth_error_Some in Hsome. rewrite length_map in Hsome. lia.
    + split; [|reflexivity]. intros _.
      apply nth_error_None in Hn. rewrite length_map in Hn. lia.
  - split; [discriminate | lia].
Qed.

Lemma opaque_render_throws_iff_witness :
  renderImageData
    (mkConfig composite 3 [85; 170] 0%float 0 false stack true
              "#ffffff"%string ["#facc15"%string] normal false None)
    (uniformImage 1 1 [10; 20; 30; 255]) = Thrown <->
  Exists (fun p =>
            let '(r, g, b, a) := p in
            Z.of_nat (length ["#facc15"%string])
            < 3 - 1 - bucketIndex 3 (sortAsc [85; 170]) (luminance r g b))
         (pixelsOf (data (uniformImage 1 1 [10; 20; 30; 255]))).
Proof.
  apply (opaque_render_throws_iff
           (mkConfig composite 3 [85; 170] 0%float 0 false stack true
                     "#ffffff"%string ["#facc15"%string] normal false None)
           (uniformImage 1 1 [10; 20; 30; 255])).
  - reflexivity.
  - reflexivity.
  - reflexivity.
  - simpl. lia.
  - simpl. lia.
Defined.

(** ** Inks only darken *)

Lemma spec_blend_darker (bg fg : Z * Z * Z) :
  byteTriple bg -> byteTriple fg ->
  darkerEq (spec_blend bg fg) bg /\ darkerEq (spec_blend bg fg) fg.
Proof.
  destruct bg as [[r1 g1] b1], fg as [[r2 g2] b2]. simpl.
  intros (Hr1 & Hg1 & Hb1) (Hr2 & Hg2 & Hb2).
  repeat split; apply Z.div_le_upper_bound; nia.
Qed.

Lemma darkerEq_refl (x : Z * Z * Z) : darkerEq x x.
Proof. destruct x as [[r g] b]. simpl. lia. Qed.

Lemma firstn_succ {A : Type} (n : nat) (l : list A) :
  firstn (S n) l = firstn n l ++ match nth_error l n with
                                 | Some x => [x]
                                 | None => []
                                 end.
Proof.
  revert l. induction n as [|n IH]; intros [|x l]; simpl; auto.
  now rewrite <- IH.
Qed.

(** X10.  Under the multiply policy a darker bucket is never lighter in
    any channel: the colour of bucket [b] is channel-wise at most the
    colour of bucket [b + 1], since it is that colour with at most one more
    ink blended in. *)
Theorem multiply_buckets_darken (c : Config) (b : Z) :
  activeTab c = composite -> isColorMode c = true ->
  blendMode c = multiply ->
  0 <= b < layerCount c - 1 ->
  exists x y,
    JS.lookup (bucketColors c) b = Some (Some (rgbOfZ x)) /\
    JS.lookup (bucketColors c) (b + 1) = Some (Some (rgbOfZ y)) /\
    byteTriple x /\ byteTriple y /\ darkerEq x y.
Proof.
  intros Htab Hcol Hmode Hb.
  rewrite !bucketColors_spec by (assumption || lia).
  unfold spec_bucket_color. rewrite Hmode. simpl option_map.
  set (inks := map spec_channels (inkColors c)).
  set (paper := spec_channels (paperColor c)).
  replace (Z.to_nat (layerCount c - 1 - b))
    with (S (Z.to_nat (layerCount c - 1 - (b + 1)))) by lia.
  set (n := Z.to_nat (layerCount c - 1 - (b + 1))).
  assert (Hinks : Forall byteTriple inks) by apply spec_channels_all_bytes.
  assert (Hy : byteTriple (fold_left spec_blend (firstn n inks) paper)).
  { apply fold_blendColors_spec;
      [apply Forall_prefix, Hinks | apply spec_channels_bytes]. }
  exists (fold_left spec_blend (firstn (S n) inks) paper),
         (fold_left spec_blend (firstn n inks) paper).
  split; [reflexivity|]. split; [reflexivity|].
  rewrite firstn_succ, fold_left_app.
  destruct (nth_error inks n) as [ink|] eqn:Hink; simpl.
  - assert (Hbyte : byteTriple ink).
    { rewrite Forall_forall in Hinks. eapply Hinks, nth_error_In, Hink. }
    repeat split; auto.
    + now apply spec_blend_bytes.
    + now apply spec_blend_darker.
  - repeat split; auto. apply darkerEq_refl.
Qed.

Lemma multiply_buckets_darken_witness :
  exists x y,
    JS.lookup (bucketColors missingInk) 0 = Some (Some (rgbOfZ x)) /\
    JS.lookup (bucketColors missingInk) (0 + 1) = Some (Some (rgbOfZ y)) /\
    byteTriple x /\ byteTriple y /\ darkerEq x y.
Proof.
  apply (multiply_buckets_darken missingInk 0).
  - reflexivity.
  - reflexivity.
  - reflexivity.
  - simpl. lia.
Defined.

(** X11.  On the colours [hexToRgb] produces, the multiply blend is
    commutative, white is its neutral element, black absorbs, and the result
    is never lighter than either colour in any channel. *)
Theorem blendColors_on_parsed_colours (h1 h2 : string) :
  blendColors (hexToRgb h1) (hexToRgb h2)
  = blendColors (hexToRgb h2) (hexToRgb h1) /\
  blendColors (hexToRgb h1) (hexToRgb "#ffffff") = hexToRgb h1 /\
  blendColors (hexToRgb h1) (hexToRgb "#000000") = hexToRgb "#000000" /\
  exists t,
    blendColors (hexToRgb h1) (hexToRgb h2) = rgbOfZ t /\
    byteTriple t /\
    darkerEq t (spec_channels h1) /\ darkerEq t (spec_channels h2).
Proof.
  pose proof (spec_channels_bytes h1) as B1.
  pose proof (spec_channels_bytes h2) as B2.
  rewrite !hexToRgb_spec.
  rewrite !blendColors_spec
    by (assumption || apply spec_channels_bytes).
  change (spec_channels "#ffffff") with (255, 255, 255).
  change (spec_channels "#000000") with (0, 0, 0).
  destruct (spec_channels h1) as [[r1 g1] b1].
  destruct (spec_channels h2) as [[r2 g2] b2].
  simpl in B1, B2. destruct B1 as (? & ? & ?), B2 as (? & ? & ?).
  repeat split.
  - simpl. now rewrite (Z.mul_comm r1), (Z.mul_comm g1), (Z.mul_comm b1).
  - simpl. now rewrite !Z.div_mul by lia.
  - simpl. now rewrite !Z.mul_0_r.
  - exists (spec_blend (r1, g1, b1) (r2, g2, b2)).
    split; [reflexivity|]. split.
    + apply spec_blend_bytes; simpl; auto.
    + apply spec_blend_darker; simpl; auto.
Qed.

(** ** Reading colours *)

Lemma hexDigit_upcase (ch : ascii) : hexDigit (upcase ch) = hexDigit ch.
Proof.
  destruct ch as [[] [] [] [] [] [] [] []]; vm_compute; reflexivity.
Qed.

Lemma upcase_hash (ch : ascii) :
  Ascii.eqb (upcase ch) "#" = Ascii.eqb ch "#".
Proof.
  destruct ch as [[] [] [] [] [] [] [] []]; vm_compute; reflexivity.
Qed.

Lemma parseHexPair_upcase (c1 c2 : ascii) :
  parseHexPair (upcase c1) (upcase c2) = parseHexPair c1 c2.
Proof. unfold parseHexPair. now rewrite !hexDigit_upcase. Qed.

Lemma list_ascii_upcase (s : string) :
  list_ascii_of_string (upcaseString s) = map upcase (list_ascii_of_string s).
Proof. induction s as [|ch rest IH]; simpl; [reflexivity | now rewrite IH]. Qed.

(** The six-digit match, on the text once the optional [#] is removed. *)
Lemma execHex_body_upcase (body : string) :
  match list_ascii_of_string (upcaseString body) with
  | [c1; c2; c3; c4; c5; c6] =>
      match parseHexPair c1 c2, parseHexPair c3 c4, parseHexPair c5 c6 with
      | Some vr, Some vg, Some vb => Some (vr, vg, vb)
      | _, _, _ => None
      end
  | _ => None
  end =
  match list_ascii_of_string body with
  | [c1; c2; c3; c4; c5; c6] =>
      match parseHexPair c1 c2, parseHexPair c3 c4, parseHexPair c5 c6 with
      | Some vr, Some vg, Some vb => Some (vr, vg, vb)
      | _, _, _ => None
      end
  | _ => None
  end.
Proof.
  rewrite list_ascii_upcase.
  destruct (list_ascii_of_string body)
    as [|c1 [|c2 [|c3 [|c4 [|c5 [|c6 [|c7 l]]]]]]]; simpl; try reflexivity.
  now rewrite !parseHexPair_upcase.
Qed.

Lemma execHex_upcase (s : string) : execHex (upcaseString s) = execHex s.
Proof.
  unfold execHex. destruct s as [|ch rest]; [reflexivity|].
  simpl upcaseString.
  pose proof (upcase_hash ch) as Hh.
  destruct (Ascii.eqb_spec ch "#") as [->|Hne].
  - change (upcase "#") with "#"%char. apply execHex_body_upcase.
  - destruct (Ascii.eqb_spec (upcase ch) "#") as [Heq|Hne']; [discriminate|].
    assert (Hbody : forall (a : ascii) (r : string), a <> "#"%char ->
              match String a r with
              | String "#"%char rest0 => rest0
              | _ => String a r
              end = String a r).
    { intros a r Ha.
      destruct a as [[] [] [] [] [] [] [] []]; try reflexivity.
      now elim Ha. }
    rewrite (Hbody (upcase ch) (upcaseString rest) Hne').
    rewrite (Hbody ch rest Hne).
    apply (execHex_body_upcase (String ch rest)).
Qed.

(** X12.  [hexToRgb] reads a colour whatever the case of its digits, and
    with or without the leading [#]. *)
Theorem hexToRgb_case_and_hash (s : string) :
  hexToRgb (upcaseString s) = hexToRgb s /\
  ((forall rest, s <> String "#" rest) ->
   hexToRgb (String "#" s) = hexToRgb s).
Proof.
  split.
  - unfold hexToRgb. now rewrite execHex_upcase.
  - intros Hnohash. unfold hexToRgb, execHex.
    destruct s as [|ch rest]; [reflexivity|].
    destruct ch as [[] [] [] [] [] [] [] []]; try reflexivity.
    now elim (Hnohash rest).
Qed.

Lemma hexToRgb_case_and_hash_witness :
  hexToRgb (String "#" "FACC15") = hexToRgb "FACC15".
Proof.
  apply (proj2 (hexToRgb_case_and_hash "FACC15")).
  intros rest. discriminate.
Defined.

Lemma parseHexPair_hexChar_check :
  forallb (fun v =>
             match parseHexPair (hexChar (v / 16)) (hexChar (v mod 16)) with
             | Some v' => v' =? v
             | None => false
             end) bytes = true.
Proof. vm_compute. reflexivity. Qed.

Lemma parseHexPair_hexChar (v : Z) :
  0 <= v <= 255 ->
  parseHexPair (hexChar (v / 16)) (hexChar (v mod 16)) = Some v.
Proof.
  intros Hv. pose proof parseHexPair_hexChar_check as T.
  rewrite forallb_forall in T. specialize (T v (In_bytes v Hv)).
  destruct (parseHexPair (hexChar (v / 16)) (hexChar (v mod 16))) as [v'|];
    [|discriminate].
  apply Z.eqb_eq in T. now subst.
Qed.

(** X13.  Every colour can be entered: the [#rrggbb] text of a triple of
    bytes is read back by [hexToRgb] as that triple. *)
Theorem hexToRgb_reads_back (t : Z * Z * Z) :
  byteTriple t -> hexToRgb (toHex t) = rgbOfZ t.
Proof.
  destruct t as [[vr vg] vb]. intros (Hr & Hg & Hb).
  unfold hexToRgb, execHex, toHex. simpl.
  now rewrite !parseHexPair_hexChar by assumption.
Qed.

Lemma hexToRgb_reads_back_witness :
  hexToRgb (toHex (250, 204, 21)) = rgbOfZ (250, 204, 21).
Proof.
  apply (hexToRgb_reads_back (250, 204, 21)). simpl. lia.
Defined.

Lemma list_ascii_length (s : string) :
  length (list_ascii_of_string s) = String.length s.
Proof. induction s; simpl; auto. Qed.

(** X14.  [hexToRgb] never fails and never leaves the byte range: any text
    gives a colour whose channels are integers in [0, 255], stored in the
    pixel data unchanged; a text that has neither six nor seven characters
    gives black. *)
Theorem hexToRgb_total_bytes (hex : string) :
  (exists t,
      byteTriple t /\ hexToRgb hex = rgbOfZ t /\
      (JS.toUint8Clamp (rgb_r (hexToRgb hex)),
       JS.toUint8Clamp (rgb_g (hexToRgb hex)),
       JS.toUint8Clamp (rgb_b (hexToRgb hex))) = t) /\
  (String.length hex <> 6%nat -> String.length hex <> 7%nat ->
   hexToRgb hex = mkRgb 0 0 0).
Proof.
  split.
  - exists (spec_channels hex).
    pose proof (spec_channels_bytes hex) as Hb.
    rewrite hexToRgb_spec.
    destruct (spec_channels hex) as [[vr vg] vb]. simpl in *.
    destruct Hb as (Hr & Hg & Hb).
    rewrite !toUint8Clamp_ofZ by assumption. auto.
  - intros H6 H7. unfold hexToRgb, execHex.
    set (body := match hex with
                 | String "#"%char rest => rest
                 | _ => hex
                 end).
    assert (Hlen : length (list_ascii_of_string body) <> 6%nat).
    { rewrite list_ascii_length. subst body.
      destruct hex as [|ch rest]; [simpl; lia|].
      destruct ch as [[] [] [] [] [] [] [] []]; simpl in *; lia. }
    destruct (list_ascii_of_string body)
      as [|c1 [|c2 [|c3 [|c4 [|c5 [|c6 [|c7 l]]]]]]]; try reflexivity.
    now elim Hlen.
Qed.

Lemma hexToRgb_total_bytes_witness : hexToRgb "red" = mkRgb 0 0 0.
Proof.
  apply (proj2 (hexToRgb_total_bytes "red")); simpl; lia.
Defined.

(** ** The layer-count effects *)

Lemma ascendingb_sound (lo : Z) (l : list Z) :
  ascendingb lo l = true ->
  StronglySorted Z.lt l /\ Forall (fun x => lo < x) l.
Proof.
  revert lo. induction l as [|x rest IH]; intros lo H; simpl in H.
  - split; constructor.
  - apply andb_true_iff in H. destruct H as [Hlo Hrest].
    apply Z.ltb_lt in Hlo. destruct (IH x Hrest) as [Hs Hall].
    split; constructor; auto.
    eapply Forall_impl; [|exact Hall]. intros y Hy. simpl in Hy. lia.
Qed.

Lemma listEqb_eq (l l' : list Z) : listEqb l l' = true -> l = l'.
Proof.
  revert l'. induction l as [|x r IH]; intros [|y r'] H; simpl in H;
    try discriminate; [reflexivity|].
  apply andb_true_iff in H. destruct H as [Hx Hr].
  apply Z.eqb_eq in Hx. subst. f_equal. now apply IH.
Qed.

Lemma initThresholds_check :
  forallb (fun n =>
     ascendingb 0 (initThresholds n) &&
     forallb (fun x => x <? 255) (initThresholds n)) grayLayers = true.
Proof. vm_compute. reflexivity. Qed.

Lemma initThresholds_exact_check :
  forallb (fun n =>
     listEqb (initThresholds n)
             (map (fun i => spec_threshold n (Z.of_nat i))
                  (seq 1 (Z.to_nat (n - 1))))) exactLayers = true.
Proof. vm_compute. reflexivity. Qed.

Lemma sortAsc_sorted_id (l : list Z) : StronglySorted Z.le l -> sortAsc l = l.
Proof.
  intros H. apply sorted_perm_unique; [apply sortAsc_sorted | exact H |].
  apply Permutation_sym, sortAsc_perm.
Qed.

Lemma StronglySorted_lt_le (l : list Z) :
  StronglySorted Z.lt l -> StronglySorted Z.le l.
Proof.
  induction 1 as [|x r Hs IH Hall]; constructor; auto.
  eapply Forall_impl; [|exact Hall]. intros y Hy. simpl in Hy. lia.
Qed.

(** X15.  The thresholds the effect installs for 2 to 64 layers are
    [layerCount - 1] integers, strictly ascending and strictly between 0 and
    255, so the engine's sort leaves them as they are.  Up to 49 layers they
    are the exactly rounded [255 / layerCount * i]; at 50 layers the double
    product for [i = 25] falls short of 127.5 and is rounded to 127, not
    128. *)
Theorem initThresholds_ascending (layers : Z) :
  2 <= layers <= 64 ->
  Z.of_nat (length (initThresholds layers)) = layers - 1 /\
  StronglySorted Z.lt (initThresholds layers) /\
  Forall (fun x => 0 < x < 255) (initThresholds layers) /\
  sortAsc (initThresholds layers) = initThresholds layers /\
  (layers <= 49 ->
   initThresholds layers
   = map (fun i => spec_threshold layers (Z.of_nat i))
         (seq 1 (Z.to_nat (layers - 1)))) /\
  nth_error (initThresholds 50) 24 = Some 127 /\
  spec_threshold 50 25 = 128.
Proof.
  intros Hn. pose proof initThresholds_check as T.
  rewrite forallb_forall in T.
  assert (Hin : In layers grayLayers).
  { unfold grayLayers. apply in_map_iff. exists (Z.to_nat layers).
    split; [lia|]. apply in_seq. lia. }
  specialize (T layers Hin).
  apply andb_true_iff in T. destruct T as [Hasc Hmax].
  apply ascendingb_sound in Hasc. destruct Hasc as [Hsorted Hpos].
  rewrite forallb_forall in Hmax. rewrite Forall_forall in Hpos.
  split.
  { unfold initThresholds. rewrite length_map, length_seq. lia. }
  split; [exact Hsorted|].
  split.
  { apply Forall_forall. intros x Hx. split; [now apply Hpos|].
    apply Z.ltb_lt. now apply Hmax. }
  split.
  { apply sortAsc_sorted_id, StronglySorted_lt_le, Hsorted. }
  split; [|split; vm_compute; reflexivity].
  intros Hmax49. pose proof initThresholds_exact_check as E.
  rewrite forallb_forall in E. apply listEqb_eq, E.
  unfold exactLayers. apply in_map_iff. exists (Z.to_nat layers).
  split; [lia|]. apply in_seq. lia.
Qed.

Lemma initThresholds_ascending_witness :
  Z.of_nat (length (initThresholds 5)) = 5 - 1 /\
  StronglySorted Z.lt (initThresholds 5) /\
  Forall (fun x => 0 < x < 255) (initThresholds 5) /\
  sortAsc (initThresholds 5) = initThresholds 5 /\
  (5 <= 49 ->
   initThresholds 5
   = map (fun i => spec_threshold 5 (Z.of_nat i))
         (seq 1 (Z.to_nat (5 - 1)))) /\
  nth_error (initThresholds 50) 24 = Some 127 /\
  spec_threshold 50 25 = 128.
Proof. apply (initThresholds_ascending 5). lia. Defined.

Lemma pushDefaults_app (n : nat) (l : list string) :
  pushDefaults n l
  = l ++ map (fun i => nth i defaultInks "#000000"%string) (seq (length l) n).
Proof.
  revert l. induction n as [|n IH]; intros l; simpl.
  - now rewrite app_nil_r.
  - rewrite IH, <- app_assoc, length_app. simpl.
    now rewrite Nat.add_1_r.
Qed.

(** X16.  The ink effect makes the list [layerCount - 1] long for every
    layer count from 1 up: entries that exist keep their index, entries
    that are missing are taken from the defaults at their index (black past
    the fourth), and a second run changes nothing.  For a layer count of 0
    or less it raises a RangeError. *)
Theorem syncInks_resizes (layers : Z) (prev : list string) :
  (1 <= layers ->
   exists inks,
     syncInks layers prev = Some inks /\
     Z.of_nat (length inks) = layers - 1 /\
     (forall i, Z.of_nat i < layers - 1 ->
                nth_error inks i
                = if (i <? length prev)%nat then nth_error prev i
                  else Some (nth i defaultInks "#000000"%string)) /\
     syncInks layers inks = Some inks) /\
  (layers <= 0 -> syncInks layers prev = None).
Proof.
  split.
  - intros Hpos. unfold syncInks.
    destruct (Z.eqb_spec (Z.of_nat (length prev)) (layers - 1)) as [Heq|Hne].
    + exists prev. repeat split; auto.
      * intros i Hi. destruct (Nat.ltb_spec i (length prev)); [reflexivity | lia].
      * now rewrite (proj2 (Z.eqb_eq _ _) Heq).
    + destruct (Z.ltb_spec (Z.of_nat (length prev)) (layers - 1)) as [Hlt|Hge].
      * set (n := Z.to_nat (layers - 1 - Z.of_nat (length prev))).
        exists (pushDefaults n prev).
        assert (Hlen : Z.of_nat (length (pushDefaults n prev)) = layers - 1).
        { rewrite pushDefaults_app, length_app, length_map, length_seq. lia. }
        repeat split; auto.
        -- intros i Hi. rewrite pushDefaults_app.
           destruct (Nat.ltb_spec i (length prev)) as [Hin|Hout].
           ++ now apply nth_error_app1.
           ++ rewrite nth_error_app2 by exact Hout.
              rewrite nth_error_map, nth_error_seq.
              destruct (Nat.ltb_spec (i - length prev) n); [|lia].
              simpl.
              replace (length prev + (i - length prev))%nat with i by lia.
              reflexivity.
        -- now rewrite (proj2 (Z.eqb_eq _ _) Hlen).
      * destruct (Z.ltb_spec (layers - 1) 0); [lia|].
        exists (firstn (Z.to_nat (layers - 1)) prev).
        assert (Hlen : Z.of_nat (length (firstn (Z.to_nat (layers - 1)) prev))
                       = layers - 1).
        { rewrite length_firstn. lia. }
        repeat split; auto.
        -- intros i Hi. destruct (Nat.ltb_spec i (length prev)); [|lia].
           rewrite nth_error_firstn.
           destruct (Nat.ltb_spec i (Z.to_nat (layers - 1))); [reflexivity | lia].
        -- now rewrite (proj2 (Z.eqb_eq _ _) Hlen).
  - intros Hneg. unfold syncInks.
    destruct (Z.eqb_spec (Z.of_nat (length prev)) (layers - 1)); [lia|].
    destruct (Z.ltb_spec (Z.of_nat (length prev)) (layers - 1)); [lia|].
    destruct (Z.ltb_spec (layers - 1) 0); [reflexivity | lia].
Qed.

Lemma syncInks_resizes_witness :
  syncInks 0 ["#facc15"%string] = None.
Proof.
  apply (proj2 (syncInks_resizes 0 ["#facc15"%string])). lia.
Defined.

Lemma initThresholds_length (layers : Z) :
  length (initThresholds layers) = Z.to_nat (layers - 1).
Proof. unfold initThresholds. now rewrite length_map, length_seq. Qed.

Lemma syncInks_length (layers : Z) (prev inks : list string) :
  syncInks layers prev = Some inks -> Z.of_nat (length inks) = layers - 1.
Proof.
  unfold syncInks.
  destruct (Z.eqb_spec (Z.of_nat (length prev)) (layers - 1)) as [Heq|Hne].
  - now intros [= <-].
  - destruct (Z.ltb_spec (Z.of_nat (length prev)) (layers - 1)) as [Hlt|Hge].
    + intros [= <-].
      rewrite pushDefaults_app, length_app, length_map, length_seq. lia.
    + destruct (Z.ltb_spec (layers - 1) 0); [discriminate|].
      intros [= <-]. rewrite length_firstn. lia.
Qed.

(** X17.  Once the two layer-count effects have run, the configuration
    holds [layerCount - 1] thresholds and [layerCount - 1] inks, and the
    engine renders it to a buffer in every view, policy and strategy and on
    every image: it cannot throw. *)
Theorem effects_make_renderable
    (c : Config) (prev : list string) (imageData : ImageData) :
  1 <= layerCount c ->
  thresholds c = initThresholds (layerCount c) ->
  syncInks (layerCount c) prev = Some (inkColors c) ->
  Z.of_nat (length (thresholds c)) = layerCount c - 1 /\
  Z.of_nat (length (inkColors c)) = layerCount c - 1 /\
  exists out, renderImageData c imageData = Painted out.
Proof.
  intros Hpos Hthr Hink.
  assert (Hlt : Z.of_nat (length (thresholds c)) = layerCount c - 1).
  { rewrite Hthr, initThresholds_length. lia. }
  assert (Hli : Z.of_nat (length (inkColors c)) = layerCount c - 1)
    by (eapply syncInks_length, Hink).
  repeat split; auto.
  destruct (activeTab c) eqn:Htab.
  - destruct (isColorMode c) eqn:Hcol.
    + destruct (renderImageData_total c (colorBytes c) imageData)
        as (out & Hout & _); [|eauto].
      intros r g b. now apply processPixel_color.
    + destruct (renderImageData_total c (grayBytes c) imageData)
        as (out & Hout & _); [|eauto].
      intros r g b. now apply processPixel_gray.
  - destruct (render_layers c imageData Htab) as (out & Hout & _). eauto.
Qed.

Lemma effects_make_renderable_witness :
  Z.of_nat (length (thresholds (scenario composite stack 0 false))) = 3 - 1 /\
  Z.of_nat (length (inkColors (scenario composite stack 0 false))) = 3 - 1 /\
  exists out,
    renderImageData (scenario composite stack 0 false) midGray = Painted out.
Proof.
  apply (effects_make_renderable (scenario composite stack 0 false)
           ["#facc15"%string; "#ef4444"%string; "#171717"%string;
            "#000000"%string] midGray).
  - simpl. lia.
  - vm_compute. reflexivity.
  - reflexivity.
Defined.

Lemma render_stack_exhausted (c : Config) (imageData : ImageData) :
  activeTab c = layers -> cutMode c = stack ->
  Z.of_nat (length (thresholds c)) - 1 - selectedLayerIndex c < 0 ->
  exists out,
    renderImageData c imageData = Painted out /\
    pixelsOf (data out)
    = map (fun p => white (snd p)) (pixelsOf (data imageData)).
Proof.
  intros Htab Hmode Hneg.
  destruct (render_layers c imageData Htab) as (out & Hout & _ & _ & _ & Hpix).
  exists out. split; [exact Hout|]. rewrite Hpix.
  apply map_ext. intros [[[r g] b] a].
  unfold mapPixel, cutBytes, stackBytes. rewrite Hmode.
  rewrite sortedThresholds_length.
  destruct (Z.ltb_spec (Z.of_nat (length (thresholds c)) - 1
                        - selectedLayerIndex c) 0); [reflexivity | lia].
Qed.

(** X18.  The effect puts the selected step back to 0 only when it has
    reached [layerCount], so all it guarantees is a step in
    [0, layerCount - 1].  The step [layerCount - 1], one past the last valid
    step, is kept; with the thresholds the effect installs, the stack cut
    guide rendered for it is entirely white. *)
Theorem resetStep_keeps_stale_step
    (c : Config) (previous : Z) (imageData : ImageData) :
  (0 <= previous -> 1 <= layerCount c ->
   0 <= resetStep (layerCount c) previous <= layerCount c - 1) /\
  (1 <= layerCount c ->
   previous = layerCount c - 1 ->
   selectedLayerIndex c = resetStep (layerCount c) previous ->
   thresholds c = initThresholds (layerCount c) ->
   activeTab c = layers -> cutMode c = stack ->
   selectedLayerIndex c = layerCount c - 1 /\
   exists out,
     renderImageData c imageData = Painted out /\
     pixelsOf (data out)
     = map (fun p => white (snd p)) (pixelsOf (data imageData))).
Proof.
  split.
  - intros Hprev Hpos. unfold resetStep.
    destruct (Z.leb_spec (layerCount c) previous); lia.
  - intros Hpos Hprev Hsel Hthr Htab Hmode.
    assert (Hstep : selectedLayerIndex c = layerCount c - 1).
    { rewrite Hsel, Hprev. unfold resetStep.
      destruct (Z.leb_spec (layerCount c) (layerCount c - 1)); [lia|reflexivity]. }
    split; [exact Hstep|].
    apply render_stack_exhausted; try assumption.
    rewrite Hthr, initThresholds_length, Hstep. lia.
Qed.

Lemma resetStep_keeps_stale_step_witness :
  selectedLayerIndex (scenario layers stack 2 false) = 3 - 1 /\
  exists out,
    renderImageData (scenario layers stack 2 false) midGray = Painted out /\
    pixelsOf (data out)
    = map (fun p => white (snd p)) (pixelsOf (data midGray)).
Proof.
  apply (proj2 (resetStep_keeps_stale_step
                  (scenario layers stack 2 false) 2 midGray)).
  - simpl. lia.
  - reflexivity.
  - reflexivity.
  - vm_compute. reflexivity.
  - reflexivity.
  - reflexivity.
Defined.

(** ** The crop controls *)

(** X19.  Crops do not compound: [applyCrop] samples the master, never
    the working image, so applying the same crop twice is applying it once;
    it leaves the master and the rectangle as they are. *)
Theorem applyCrop_idempotent
    (drawImage : ImageData -> Z -> Z -> Z -> Z -> ImageData)
    (st : Crop.State) :
  Crop.applyCrop drawImage (Crop.applyCrop drawImage st)
  = Crop.applyCrop drawImage st /\
  Crop.originalImageRef (Crop.applyCrop drawImage st)
  = Crop.originalImageRef st /\
  Crop.cropRect (Crop.applyCrop drawImage st) = Crop.cropRect st.
Proof.
  unfold Crop.applyCrop.
  destruct (Crop.cropRect st) as [rect|] eqn:Hrect; [|now rewrite Hrect].
  destruct (Crop.originalImageRef st) as [m|] eqn:Hm; [|now rewrite Hrect, Hm].
  destruct ((rw rect =? 0) || (rh rect =? 0)) eqn:Hdeg.
  - now rewrite Hrect, Hm, Hdeg.
  - simpl. now rewrite Hdeg.
Qed.

Lemma applyCrop_master
    (drawImage : ImageData -> Z -> Z -> Z -> Z -> ImageData)
    (st : Crop.State) :
  Crop.originalImageRef (Crop.applyCrop drawImage st)
  = Crop.originalImageRef st.
Proof.
  unfold Crop.applyCrop.
  destruct (Crop.cropRect st) as [rect|]; [|reflexivity].
  destruct (Crop.originalImageRef st) as [m|] eqn:Hm; [|exact Hm].
  destruct ((rw rect =? 0) || (rh rect =? 0)); [exact Hm | reflexivity].
Qed.

Lemma runCropOp_master
    (drawImage : ImageData -> Z -> Z -> Z -> Z -> ImageData)
    (st : Crop.State) (op : CropOp) :
  Crop.originalImageRef (runCropOp drawImage st op)
  = Crop.originalImageRef st.
Proof.
  destruct op; simpl.
  - unfold startCropMode.
    destruct (Crop.originalImageRef st) eqn:Hm; [reflexivity | exact Hm].
  - apply applyCrop_master.
  - unfold resetToOriginal.
    destruct (Crop.originalImageRef st) eqn:Hm; [reflexivity | exact Hm].
Qed.

Lemma runCropOps_master
    (drawImage : ImageData -> Z -> Z -> Z -> Z -> ImageData)
    (ops : list CropOp) (st : Crop.State) :
  Crop.originalImageRef (runCropOps drawImage ops st)
  = Crop.originalImageRef st.
Proof.
  unfold runCropOps. revert st.
  induction ops as [|op ops IH]; intros st; simpl; [reflexivity|].
  now rewrite IH, runCropOp_master.
Qed.

(** X20.  The master is never altered: after any sequence of crop
    controls (start, apply, reset) it is the image that was uploaded, so a
    reset always brings back the same state, whatever was cropped before:
    the working image is the master again, with its dimensions and the full
    rectangle. *)
Theorem crop_controls_keep_master
    (drawImage : ImageData -> Z -> Z -> Z -> Z -> ImageData)
    (ops : list CropOp) (st : Crop.State) :
  Crop.originalImageRef (runCropOps drawImage ops st)
  = Crop.originalImageRef st /\
  (forall m, Crop.originalImageRef st = Some m ->
     resetToOriginal (runCropOps drawImage ops st)
     = Crop.mkState (Some m) (width m, height m) false
         (Some (mkRect 0 0 (width m) (height m))) (Some m) (Some m)) /\
  (forall m, Crop.originalImageRef st = Some m ->
     resetToOriginal (runCropOps drawImage ops st) = resetToOriginal st).
Proof.
  pose proof (runCropOps_master drawImage ops st) as Hm.
  split; [exact Hm|].
  split; intros m Horig; unfold resetToOriginal; rewrite Hm, Horig; reflexivity.
Qed.

Lemma crop_controls_keep_master_witness :
  resetToOriginal
    (runCropOps Crop.copyRegion [StartCrop; ApplyCrop]
       (cropping (mkRect 3 2 (-2) (-1))))
  = resetToOriginal (cropping (mkRect 3 2 (-2) (-1))).
Proof.
  apply (proj2 (proj2 (crop_controls_keep_master Crop.copyRegion
                         [StartCrop; ApplyCrop]
                         (cropping (mkRect 3 2 (-2) (-1))))) master).
  reflexivity.
Defined.

(** ** The batch export *)

Lemma renderToContext_step (original : bool) (c : Config) (i : Z)
    (drawn : ImageData) :
  renderToContext original true (stepOverrides i c) drawn
  = renderImageData (stepOverrides i c) drawn /\
  exists out,
    renderImageData (stepOverrides i c) drawn = Painted out /\
    Forall2 bitonal (pixelsOf (data drawn)) (pixelsOf (data out)).
Proof.
  split; [reflexivity|].
  destruct (render_layers (stepOverrides i c) drawn eq_refl)
    as (out & Hout & _ & _ & _ & Hpix).
  exists out. split; [exact Hout|].
  rewrite Hpix. apply Forall2_map_self, cutBytes_bitonal.
Qed.

Lemma exportSteps_all (original : bool) (c : Config) (drawn : ImageData)
    (steps : list Z) :
  exportSteps original c drawn steps
  = (map (fun i => mkDownload (stepFileName (cutMode c) i)
                     (renderImageData (stepOverrides i c) drawn)) steps,
     true).
Proof.
  induction steps as [|i rest IH]; [reflexivity|].
  cbn [exportSteps map].
  destruct (renderToContext_step original c i drawn) as [-> (out & Hout & _)].
  rewrite Hout, IH. reflexivity.
Qed.

(** X21.  When the preview renders, the export downloads the preview
    first and then one cut guide per step, for the steps
    [0 .. layerCount - 2] in order, each under the name of its step and
    strategy and each a bitonal stencil of the drawn image; it ends with
    [isExporting] off.  The tab, the step and the crop mode the user is in
    play no part.  When the preview throws nothing is downloaded and
    [isExporting] stays on; without a working image nothing happens. *)
Theorem export_downloads
    (original busy : bool) (c : Config) (drawn : ImageData) :
  (forall preview,
      renderImageData (previewOverrides c) drawn = Painted preview ->
      handleDownloadAll original true busy c drawn
      = (mkDownload "linocut-00-preview.png" (Painted preview)
           :: map (fun i => mkDownload (stepFileName (cutMode c) i)
                              (renderImageData (stepOverrides i c) drawn))
                  (Crop.range (layerCount c - 1)),
         false)) /\
  (forall i, exists out,
      renderImageData (stepOverrides i c) drawn = Painted out /\
      Forall2 bitonal (pixelsOf (data drawn)) (pixelsOf (data out))) /\
  (renderImageData (previewOverrides c) drawn = Thrown ->
   handleDownloadAll original true busy c drawn = ([], true)) /\
  handleDownloadAll original false busy c drawn = ([], busy).
Proof.
  split; [|split; [|split]].
  - intros preview Hprev. unfold handleDownloadAll. simpl negb. cbv iota.
    change (renderToContext original true (previewOverrides c) drawn)
      with (renderImageData (previewOverrides c) drawn).
    rewrite Hprev, exportSteps_all. reflexivity.
  - intros i. apply (renderToContext_step original c i drawn).
  - intros Hthrown. unfold handleDownloadAll. simpl negb. cbv iota.
    change (renderToContext original true (previewOverrides c) drawn)
      with (renderImageData (previewOverrides c) drawn).
    now rewrite Hthrown.
  - reflexivity.
Qed.

Lemma export_downloads_witness :
  handleDownloadAll false true false missingInk
    (uniformImage 1 1 [12; 12; 12; 255])
  = (mkDownload "linocut-00-preview.png"
       (Painted (uniformImage 1 1 [250; 204; 21; 255]))
       :: map (fun i => mkDownload (stepFileName (cutMode missingInk) i)
                          (renderImageData (stepOverrides i missingInk)
                             (uniformImage 1 1 [12; 12; 12; 255])))
              (Crop.range (layerCount missingInk - 1)),
     false).
Proof.
  apply (proj1 (export_downloads false false missingInk
                  (uniformImage 1 1 [12; 12; 12; 255]))).
  vm_compute. reflexivity.
Defined.

Lemma string_of_uint_noDash (d : Decimal.uint) :
  noDash (NilEmpty.string_of_uint d).
Proof.
  induction d; simpl; intros ch Hin; try (now destruct Hin);
    destruct Hin as [<-|Hin]; try discriminate; now apply IHd.
Qed.

Lemma numberToString_noDash (z : Z) : 0 < z -> noDash (numberToString z).
Proof.
  destruct z as [|p|p]; try lia. intros _.
  unfold numberToString. simpl.
  unfold NilZero.string_of_uint.
  pose proof (DecimalPos.Unsigned.to_uint_nonnil p) as Hnil.
  destruct (Pos.to_uint p) eqn:Hd; try (now elim Hnil);
    rewrite <- Hd; apply string_of_uint_noDash.
Qed.

Lemma numberToString_inj (z z' : Z) :
  numberToString z = numberToString z' -> z = z'.
Proof.
  unfold numberToString. intros H.
  assert (Hnz : forall n, Z.to_int n <> Decimal.Pos Decimal.Nil /\
                          Z.to_int n <> Decimal.Neg Decimal.Nil).
  { intros [|p|p]; simpl; split; try discriminate;
      intros [= Hp]; now apply (DecimalPos.Unsigned.to_uint_nonnil p). }
  apply DecimalZ.to_int_inj.
  assert (Some (Z.to_int z) = Some (Z.to_int z')) as [= Heq]; [|exact Heq].
  rewrite <- (NilZero.isi (Z.to_int z)) by apply Hnz.
  rewrite <- (NilZero.isi (Z.to_int z')) by apply Hnz.
  now rewrite H.
Qed.

Lemma append_cancel (a x y : string) :
  (a ++ x)%string = (a ++ y)%string -> x = y.
Proof. induction a; simpl; intros H; [exact H | injection H; auto]. Qed.

Lemma noDash_prefix_unique (a b x y : string) :
  noDash a -> noDash b ->
  (a ++ String "-" x)%string = (b ++ String "-" y)%string -> a = b.
Proof.
  revert b. induction a as [|ch a IH]; intros [|ch' b] Ha Hb H; simpl in H.
  - reflexivity.
  - injection H as Hch _. elim (Hb ch'); [now left | now symmetry].
  - injection H as Hch _. elim (Ha ch); [now left | exact Hch].
  - injection H as -> H. f_equal. apply IH; auto.
    + intros c0 Hc. apply Ha. now right.
    + intros c0 Hc. apply Hb. now right.
Qed.

Lemma stepFileName_inj (mode : CutMode) (i j : Z) :
  0 <= i -> 0 <= j -> stepFileName mode i = stepFileName mode j -> i = j.
Proof.
  intros Hi Hj H. unfold stepFileName in H.
  apply append_cancel, append_cancel, append_cancel in H.
  apply noDash_prefix_unique in H;
    try (apply numberToString_noDash; lia).
  apply numberToString_inj in H. lia.
Qed.

Lemma stepFileName_not_preview (mode : CutMode) (i : Z) :
  stepFileName mode i <> "linocut-00-preview.png"%string.
Proof. destruct mode; unfold stepFileName; simpl; discriminate. Qed.

(** X22.  The files of an export never collide: the names handed to
    [downloadFile] in one export are pairwise distinct. *)
Theorem export_names_distinct
    (original source busy : bool) (c : Config) (drawn : ImageData) :
  NoDup (map filename
           (fst (handleDownloadAll original source busy c drawn))).
Proof.
  unfold handleDownloadAll. destruct source; simpl negb; cbv iota;
    [|constructor].
  change (renderToContext original true (previewOverrides c) drawn)
    with (renderImageData (previewOverrides c) drawn).
  rewrite exportSteps_all.
  assert (Hnames :
    NoDup ("linocut-00-preview.png"%string
             :: map (stepFileName (cutMode c)) (Crop.range (layerCount c - 1)))).
  { constructor.
    - intros Hin. apply in_map_iff in Hin. destruct Hin as (i & Hi & _).
      now apply stepFileName_not_preview in Hi.
    - apply NoDup_map_NoDup_ForallPairs.
      + intros i j Hi Hj Heq. unfold Crop.range in Hi, Hj.
        apply in_map_iff in Hi, Hj.
        destruct Hi as (n & <- & _), Hj as (m & <- & _).
        apply (stepFileName_inj (cutMode c)); [lia | lia | exact Heq].
      + unfold Crop.range. apply NoDup_map_NoDup_ForallPairs.
        * intros n m _ _ Hnm. lia.
        * apply seq_NoDup. }
  destruct (renderImageData (previewOverrides c) drawn);
    simpl; rewrite ?map_map; simpl; first [exact Hnames | constructor].
Qed.

(** ** The grey levels of the preview *)

Lemma spec_gray_levels (n b : Z) :
  1 <= n <= 63 -> 0 <= b ->
  spec_gray (n + 1) 0 = 0 /\
  spec_gray (n + 1) n = 255 /\
  spec_gray (n + 1) b < spec_gray (n + 1) (b + 1).
Proof.
  intros Hn Hb. unfold spec_gray.
  replace (n + 1 - 1) with n by lia.
  split; [apply Z.div_small; lia|].
  split.
  - replace (2 * 255 * n + n) with (255 * (2 * n) + n) by lia.
    rewrite Z.div_add_l by lia. rewrite Z.div_small by lia. lia.
  - apply Z.lt_le_trans with ((2 * 255 * b + n + 1 * (2 * n)) / (2 * n)).
    + rewrite Z.div_add by lia. lia.
    + apply Z.div_le_mono; lia.
Qed.

(** X23.  In the black-and-white preview of 2 to 64 layers the darkest
    bucket is drawn black (0), the paper bucket white (255), and each bucket
    strictly lighter than the one before, so that no two tonal bands look
    alike. *)
Theorem gray_levels_separate_buckets (layers b : Z) :
  2 <= layers <= 64 -> 0 <= b < layers - 1 ->
  grayValue layers 0 = 0 /\
  grayValue layers (layers - 1) = 255 /\
  grayValue layers b < grayValue layers (b + 1).
Proof.
  intros Hn Hb.
  rewrite !grayValue_exact by lia.
  destruct (spec_gray_levels (layers - 1) b) as (H0 & H1 & Hlt); try lia.
  replace (layers - 1 + 1) with layers in * by lia. auto.
Qed.

Lemma gray_levels_separate_buckets_witness :
  grayValue 5 0 = 0 /\
  grayValue 5 (5 - 1) = 255 /\
  grayValue 5 2 < grayValue 5 (2 + 1).
Proof. apply (gray_levels_separate_buckets 5 2); lia. Defined.

(** ** The output stays a byte array *)

Lemma toUint8Clamp_range (x : float) : 0 <= JS.toUint8Clamp x <= 255.
Proof.
  unfold JS.toUint8Clamp.
  destruct (Prim2SF x) as [s|s| |s m e]; try lia.
  - destruct s; lia.
  - destruct s; [lia|].
    destruct (Z.leb_spec 0 e).
    + pose proof (Z.shiftl_nonneg (Z.pos m) e). lia.
    + pose proof (Z.shiftr_nonneg (Z.pos m) (- e)) as Hf.
      destruct (Z.leb_spec 255 (Z.shiftr (Z.pos m) (- e))); [lia|].
      destruct (_ <? _); [lia|].
      destruct (_ <? _); [lia|].
      destruct (Z.even _); lia.
Qed.

Lemma processPixel_bytes (c : Config) (sorted : list Z)
    (colors : list (option rgb)) (r g b r' g' b' : Z) :
  processPixel c sorted colors r g b = Some (r', g', b') ->
  0 <= r' <= 255 /\ 0 <= g' <= 255 /\ 0 <= b' <= 255.
Proof.
  unfold processPixel.
  destruct (activeTab c).
  - destruct (isColorMode c).
    + destruct (JS.lookup colors _) as [[col|]|]; try discriminate.
      intros [= <- <- <-]. repeat split; apply toUint8Clamp_range.
    + intros [= <- <- <-]. unfold grayValue.
      repeat split; apply toUint8Clamp_range.
  - destruct (cutMode c).
    + destruct (_ <? 0).
      * intros [= <- <- <-]. lia.
      * intros [= <- <- <-].
        destruct (stencil_bitonal (inverted c)
                    (JS.ltUndef (luminance r g b)
                       (JS.lookup sorted
                          (Z.of_nat (length sorted) - 1 - selectedLayerIndex c))))
          as [-> | ->]; lia.
    + intros [= <- <- <-].
      destruct (stencil_bitonal (inverted c)
                  (bucketIndex (layerCount c) sorted (luminance r g b)
                   =? layerCount c - 1 - (selectedLayerIndex c + 1)))
        as [-> | ->]; lia.
Qed.

Lemma processLoop_bytes (c : Config) (sorted : list Z)
    (colors : list (option rgb)) (d out : list Z) :
  Forall (fun x => 0 <= x <= 255) d ->
  processLoop c sorted colors d = Some out ->
  Forall (fun x => 0 <= x <= 255) out.
Proof.
  revert out. induction d as [l Hl | r g b a rest IH] using quad_ind;
    intros out Hd H.
  - destruct l as [|x [|y [|z [|w l]]]]; simpl in *; try lia;
      injection H as <-; exact Hd.
  - rewrite processLoop_quad in H.
    destruct (processPixel c sorted colors r g b) as [[[r' g'] b']|] eqn:Hp;
      [|discriminate].
    destruct (processLoop c sorted colors rest) as [rest'|] eqn:Hrest;
      [|discriminate].
    injection H as <-.
    apply processPixel_bytes in Hp. destruct Hp as (Hr & Hg & Hb).
    inversion Hd as [|? ? Ha0 Hd1]; subst.
    inversion Hd1 as [|? ? Ha1 Hd2]; subst.
    inversion Hd2 as [|? ? Ha2 Hd3]; subst.
    inversion Hd3 as [|? ? Ha3 Hd4]; subst.
    repeat constructor; try lia. now apply IH.
Qed.

(** X24.  A render never writes anything but bytes: whatever the
    configuration, even a malformed one whose grey value is not a number, if
    the input data are bytes and the render reaches [putImageData], the
    output data are bytes. *)
Theorem painted_data_are_bytes (c : Config) (imageData out : ImageData) :
  Forall (fun x => 0 <= x <= 255) (data imageData) ->
  renderImageData c imageData = Painted out ->
  Forall (fun x => 0 <= x <= 255) (data out).
Proof.
  intros Hd. unfold renderImageData.
  destruct (processLoop c (sortedThresholds c) (bucketColors c) (data imageData))
    as [d|] eqn:Hloop; [|discriminate].
  intros [= <-]. simpl. eapply processLoop_bytes; eauto.
Qed.

Lemma painted_data_are_bytes_witness :
  Forall (fun x => 0 <= x <= 255) (data (uniformImage 4 4 [0; 0; 0; 255])).
Proof.
  apply (painted_data_are_bytes oneLayer midGray).
  - repeat constructor; lia.
  - vm_compute. reflexivity.
Defined.
